(** * yolo-run-camera.py: weights resolution and the inference front-end

    A shallow embedding of [src/yolo-run-camera.py].  The script parses
    its command line, resolves a weights file, builds a detection model,
    runs its [predict] operation and prints a short summary.

    Everything the script observes of the outside world (the file system,
    the result of [argparse], the detection library) is an explicit
    argument; everything it does to the outside world is an [event] of a
    trace.  Exceptions are values of [exn]; a computation is a trace
    together with an outcome. *)

From Stdlib Require Import String Ascii List ZArith QArith Bool Lia.
From Stdlib Require Import Sorted Permutation DecimalString DecimalPos.
Import ListNotations.

Local Open Scope string_scope.
Local Open Scope list_scope.
Local Open Scope Z_scope.

Set Implicit Arguments.

(** ** Python strings

    A string is a sequence of bytes.  On a string of bytes below 128
    (an ASCII string) the operations below are those of Python; what
    Python does with characters beyond ASCII is left to the world where a
    function of the script depends on it. *)

Module PyStr.

Definition is_lower (c : ascii) : bool :=
  let n := nat_of_ascii c in (97 <=? n)%nat && (n <=? 122)%nat.

Definition upper_char (c : ascii) : ascii :=
  if is_lower c then ascii_of_nat (nat_of_ascii c - 32) else c.

(** [str.upper()] on the letters a to z.  The script compares the result
    with "AUTO" only, and no character beyond a, u, t and o has A, U, T or
    O in its upper case. *)
Fixpoint upper (s : string) : string :=
  match s with
  | EmptyString => EmptyString
  | String c s' => String (upper_char c) (upper s')
  end.

(** The white space of [str.isspace()] below 128: TAB, LF, VT, FF, CR, FS,
    GS, RS, US and the blank. *)
Definition is_space (c : ascii) : bool :=
  let n := nat_of_ascii c in
  ((9 <=? n)%nat && (n <=? 13)%nat) || ((28 <=? n)%nat && (n <=? 32)%nat).

Definition is_ascii_char (c : ascii) : bool := (nat_of_ascii c <? 128)%nat.

(** [s.isascii()] *)
Fixpoint is_ascii (s : string) : bool :=
  match s with
  | EmptyString => true
  | String c s' => is_ascii_char c && is_ascii s'
  end.

Definition is_digit (c : ascii) : bool :=
  let n := nat_of_ascii c in (48 <=? n)%nat && (n <=? 57)%nat.

Definition digit_value (c : ascii) : Z := Z.of_nat (nat_of_ascii c - 48).

(** Python truthiness of a [str]: the empty string is falsy. *)
Definition truthy (s : string) : bool :=
  match s with EmptyString => false | _ => true end.

(** [s.endswith(suffix)] *)
Definition ends_with (suffix s : string) : bool :=
  let n := String.length s in
  let m := String.length suffix in
  (m <=? n)%nat && String.eqb (substring (n - m) m s) suffix.

(** [s.split(sep)] for a one-character separator. *)
Fixpoint split (sep : ascii) (s : string) : list string :=
  match s with
  | EmptyString => [EmptyString]
  | String c s' =>
      if Ascii.eqb c sep then EmptyString :: split sep s'
      else match split sep s' with
           | w :: ws => String c w :: ws
           | [] => [String c EmptyString]
           end
  end.

(** [str(n)] for an [int]. *)
Definition of_int (n : Z) : string := NilZero.string_of_int (Z.to_int n).

End PyStr.

(** Characters of a string. *)
Fixpoint str_forall (f : ascii -> bool) (s : string) : bool :=
  match s with
  | EmptyString => true
  | String c s' => f c && str_forall f s'
  end.

Fixpoint str_exists (f : ascii -> bool) (s : string) : bool :=
  match s with
  | EmptyString => false
  | String c s' => f c || str_exists f s'
  end.

(** ** Exceptions and outcomes *)

(** The exception classes the script can meet.  [FileNotFoundError] and
    [ValueError] are the two it names; [OtherException] is any other
    subclass of [Exception]; [KeyboardInterrupt] and [SystemExit] derive
    from [BaseException] only. *)
Inductive exn : Type :=
| FileNotFoundError (msg : string)
| ValueError
| OtherException (name : string)
| KeyboardInterrupt
| SystemExit (code : Z).

(** [isinstance(e, Exception)]: what [except Exception] catches. *)
Definition is_Exception (e : exn) : bool :=
  match e with
  | FileNotFoundError _ | ValueError | OtherException _ => true
  | KeyboardInterrupt | SystemExit _ => false
  end.

Inductive outcome (A : Type) : Type :=
| Ok (a : A)
| Raise (e : exn).

Arguments Ok {A} a.
Arguments Raise {A} e.

(** ** [int(src)] on a string, base 10

    On an ASCII string: the white space of C ([isspace]: TAB, LF, VT, FF,
    CR and the blank) is stripped on both sides, one sign is allowed, the
    digits may be grouped by single underscores, and there may be at most
    [int_max_str_digits] digits.  Anything else raises [ValueError]. *)

Definition int_space (c : ascii) : bool :=
  let n := nat_of_ascii c in
  ((9 <=? n)%nat && (n <=? 13)%nat) || (n =? 32)%nat.

Fixpoint int_lstrip (s : string) : string :=
  match s with
  | EmptyString => EmptyString
  | String c s' => if int_space c then int_lstrip s' else s
  end.

Fixpoint int_rstrip (s : string) : string :=
  match s with
  | EmptyString => EmptyString
  | String c s' =>
      match int_rstrip s' with
      | EmptyString => if int_space c then EmptyString else String c EmptyString
      | r => String c r
      end
  end.

Definition int_strip (s : string) : string := int_rstrip (int_lstrip s).

Fixpoint digits_value (acc : Z) (after_digit : bool) (s : string) : option Z :=
  match s with
  | EmptyString => if after_digit then Some acc else None
  | String c s' =>
      if PyStr.is_digit c then
        digits_value (10 * acc + PyStr.digit_value c) true s'
      else if Ascii.eqb c "_" && after_digit then
        match s' with
        | String d _ => if PyStr.is_digit d then digits_value acc false s' else None
        | EmptyString => None
        end
      else None
  end.

(** The number of digits of a string. *)
Fixpoint digit_count (s : string) : Z :=
  match s with
  | EmptyString => 0
  | String c s' => (if PyStr.is_digit c then 1 else 0) + digit_count s'
  end.

(** [sys.get_int_max_str_digits()]: the interpreter's default, which the
    script leaves as it is. *)
Definition int_max_str_digits : Z := 4300.

(** The sign of a stripped literal and what follows it. *)
Definition signed_digits (t : string) : bool * string :=
  match t with
  | String "-" ds => (true, ds)
  | String "+" ds => (false, ds)
  | ds => (false, ds)
  end.

(** [int(s)] for an ASCII [s]; [None] is [ValueError]. *)
Definition int_ascii (s : string) : option Z :=
  let (negative, ds) := signed_digits (int_strip s) in
  if int_max_str_digits <? digit_count ds then None
  else option_map (fun n => if negative then - n else n) (digits_value 0 false ds).

(** [int(s)].  For a string with a character beyond ASCII the interpreter
    consults its Unicode tables (decimal digits and white space of every
    script); [beyond] is what it answers there, [None] being
    [ValueError]. *)
Definition py_int (beyond : string -> option Z) (s : string) : outcome Z :=
  match (if PyStr.is_ascii s then int_ascii s else beyond s) with
  | Some n => Ok n
  | None => Raise ValueError
  end.

(** ** [coerce_source]

<<
    try:
        return int(src)
    except ValueError:
        return src
>> *)
Definition coerce_source (beyond : string -> option Z) (src : string)
    : outcome (Z + string) :=
  match py_int beyond src with
  | Ok n => Ok (inl n)
  | Raise ValueError => Ok (inr src)
  | Raise e => Raise e
  end.

(** *** The literals [int()] accepts, said without the parser *)

(** Digits in groups separated by single underscores. *)
Inductive grouped : string -> Prop :=
| grouped_one (c : ascii) :
    PyStr.is_digit c = true -> grouped (String c EmptyString)
| grouped_more (c : ascii) (s : string) :
    PyStr.is_digit c = true -> grouped s -> grouped (String c s)
| grouped_under (c : ascii) (s : string) :
    PyStr.is_digit c = true -> grouped s -> grouped (String c (String "_" s)).

(** The number the digits of a string write, other characters skipped. *)
Fixpoint number_of (acc : Z) (s : string) : Z :=
  match s with
  | EmptyString => acc
  | String c s' =>
      if PyStr.is_digit c then number_of (10 * acc + PyStr.digit_value c) s'
      else number_of acc s'
  end.

(** [s] is white space, an optional sign, grouped digits (at most
    [int_max_str_digits] of them) and white space, and the digits write
    [n] up to the sign. *)
Inductive int_syntax (s : string) (n : Z) : Prop :=
| int_syntax_intro (l sign body r : string) :
    s = (l ++ sign ++ body ++ r)%string ->
    str_forall int_space l = true ->
    str_forall int_space r = true ->
    sign = EmptyString \/ sign = "+" \/ sign = "-" ->
    grouped body ->
    digit_count body <= int_max_str_digits ->
    n = (if String.eqb sign "-" then - number_of 0 body else number_of 0 body) ->
    int_syntax s n.

(** The value of a decimal numeral read from its first digit on, [acc]
    being the value of the digits already read. *)
Fixpoint uint_value (acc : Z) (d : Decimal.uint) : Z :=
  match d with
  | Decimal.Nil => acc
  | Decimal.D0 l => uint_value (10 * acc + 0) l
  | Decimal.D1 l => uint_value (10 * acc + 1) l
  | Decimal.D2 l => uint_value (10 * acc + 2) l
  | Decimal.D3 l => uint_value (10 * acc + 3) l
  | Decimal.D4 l => uint_value (10 * acc + 4) l
  | Decimal.D5 l => uint_value (10 * acc + 5) l
  | Decimal.D6 l => uint_value (10 * acc + 6) l
  | Decimal.D7 l => uint_value (10 * acc + 7) l
  | Decimal.D8 l => uint_value (10 * acc + 8) l
  | Decimal.D9 l => uint_value (10 * acc + 9) l
  end.


(** ** Paths

    [pathlib.Path] is [PosixPath] or [WindowsPath] by platform.  The script
    uses the constructor, [str], [is_absolute], the [/] operator and the
    case folding that [glob] applies to names; a flavour provides them. *)

Class PathFlavour : Type := {
  Path : Type;
  mkPath : string -> Path;              (* Path(s) *)
  path_str : Path -> string;            (* str(p) *)
  is_absolute : Path -> bool;           (* p.is_absolute() *)
  joinpath : Path -> Path -> Path;      (* a / b *)
  normcase : string -> string           (* case folding of glob matching *)
}.

(** *** The POSIX flavour

    A path is its root (empty, one slash, or exactly two slashes) and its
    parts; empty parts and single dots are dropped by the constructor. *)
Module Posix.

Record path : Type := { root : string; parts : list string }.

(** Whether the character at index [i] is the separator. *)
Definition slash_at (i : nat) (s : string) : bool :=
  match String.get i s with
  | Some c => Ascii.eqb c "/"
  | None => false
  end.

(** The root of a string: none without a leading slash, two slashes when
    there are exactly two, one slash otherwise. *)
Definition parse_root (s : string) : string :=
  if negb (slash_at 0 s) then ""
  else if negb (slash_at 1 s) || slash_at 2 s then "/"
  else "//".

Definition keep_part (w : string) : bool :=
  negb (String.eqb w "" || String.eqb w ".").

Definition make (s : string) : path :=
  {| root := parse_root s; parts := filter keep_part (PyStr.split "/" s) |}.

Definition to_str (p : path) : string :=
  match root p, parts p with
  | EmptyString, [] => "."
  | r, ws => r ++ String.concat "/" ws
  end.

Definition absolute (p : path) : bool := PyStr.truthy (root p).

Definition join (a b : path) : path :=
  if absolute b then b
  else {| root := root a; parts := parts a ++ parts b |}.

(** The paths the constructor builds: each part is a name. *)
Fixpoint no_slash (w : string) : bool :=
  match w with
  | EmptyString => true
  | String c w' => negb (Ascii.eqb c "/") && no_slash w'
  end.

Definition well_formed (p : path) : Prop :=
  (root p = "" \/ root p = "/" \/ root p = "//")
  /\ Forall (fun w => keep_part w = true /\ no_slash w = true) (parts p).

End Posix.

#[export] Instance posix : PathFlavour := {|
  Path := Posix.path;
  mkPath := Posix.make;
  path_str := Posix.to_str;
  is_absolute := Posix.absolute;
  joinpath := Posix.join;
  normcase := fun s => s
|}.

(** ** The world the script runs in *)

Section Script.

Context {flavour : PathFlavour}.

(** The file system, as far as the script looks at it; the system
    decides every answer.  [fs_is_file p] is the outcome of [p.is_file()]:
    [True], [False], or the exception it lets through (a name too long, a
    directory that may not be searched); the system looks a relative [p]
    up from the working directory.  [fs_scandir] lists the names in the
    script's directory in the order the system reports them.  [fs_stat p]
    is the outcome of [p.stat().st_mtime]: the time, or the exception of a
    link that leads nowhere or may not be followed.  A time is a finite
    double; a finite double is a whole multiple of the smallest positive
    double, and the multiple is kept, so that the order is that of the
    doubles. *)
Record filesystem : Type := {
  fs_script_dir : Path;                 (* Path(__file__).parent *)
  fs_is_file : Path -> outcome bool;    (* p.is_file() *)
  fs_scandir : list string;
  fs_stat : Path -> outcome Z           (* p.stat().st_mtime *)
}.

(** The paths [Path(__file__).parent.glob("*.pt")] yields. *)
Definition glob_pt (fs : filesystem) : list Path :=
  map (fun name => joinpath (fs_script_dir fs) (mkPath name))
      (filter (fun name => PyStr.ends_with ".pt" (normcase name)) (fs_scandir fs)).

(** *** Values of the detection library *)

(** One element of [first.boxes].  [box_cls] is what evaluating
    [int(b.cls[0])] gives when [getattr(b, "cls", None)] is not [None],
    and [None] when it is; likewise [box_conf] for [float(b.conf[0])]. *)
Record box : Type := {
  box_cls : option (outcome Z);
  box_conf : option (outcome Q)
}.

(** A [Boxes] object: [len(boxes)] and the sequence its iteration gives. *)
Record boxes : Type := {
  boxes_len : outcome Z;
  boxes_items : list box
}.

(** One element of the list [predict] returns: reading [first.boxes]
    raises, gives [None], or gives a [Boxes] object. *)
Record result : Type := { result_boxes : outcome (option boxes) }.

(** The model object: [model_names] is [Some d] when [model.names] exists
    and is a [dict], given by its items. *)
Record model : Type := { model_names : option (list (Z * string)) }.

(** The parsed command line ([argparse.Namespace]). *)
Record namespace : Type := {
  weights : option string;
  source : string;
  conf : Q;
  imgsz : Z;
  device : string;
  show : bool;
  save : bool;
  check : bool
}.

(** The keyword arguments of [model.predict]. *)
Record predict_args : Type := {
  pa_source : Z + string;
  pa_conf : Q;
  pa_imgsz : Z;
  pa_device : option string;
  pa_show : bool;
  pa_save : bool;
  pa_stream : bool;
  pa_verbose : bool
}.

(** Everything outside the script: the outcome of [argparse] on the
    command line, the file system, what [int()] answers beyond ASCII, and
    the detection library.  [predict] returns [Some l] when its value is a
    list and [None] otherwise. *)
Record world : Type := {
  w_args : outcome namespace;
  w_fs : filesystem;
  w_int : string -> option Z;
  w_YOLO : string -> outcome model;
  w_predict : model -> predict_args -> outcome (option (list result))
}.

(** *** Traces *)

(** The lines the script prints, one constructor per [print] call. *)
Inductive message : Type :=
| MsgError (text : string)              (* print(str(e)) *)
| MsgHint                               (* "Hint: Set DEFAULT_WEIGHTS ..." *)
| MsgUsingWeights (p : Path)            (* "Using weights: {weights_path}" *)
| MsgCheckOk                            (* "Weights file resolved successfully. ..." *)
| MsgStarting (src : Z + string)        (* "Starting inference on source: {source}" *)
| MsgDone                               (* "Done. Example detections (first frame):" *)
| MsgDetection (i : Z) (label : string) (c : Q)  (* "  #{i+1}: {label} @ {conf:.2f}" *)
| MsgNoDetections                       (* "  No detections in the first result." *)
| MsgUnavailable.                       (* "  Parsed results summary unavailable (non-critical)." *)

Inductive event : Type :=
| EvParseArgs                           (* parse_args() *)
| EvIsFile (p : Path)                   (* p.is_file() *)
| EvGlob (dir : Path)                   (* dir.glob("*.pt") *)
| EvStat (p : Path)                     (* p.stat() *)
| EvPrint (m : message)                 (* print(...) *)
| EvYOLO (w : string)                   (* YOLO(w) *)
| EvPredict (m : model) (a : predict_args).  (* model.predict(...) *)

(** A computation: the events it performed and how it ended. *)
Definition M (A : Type) : Type := (list event * outcome A)%type.

Definition ret {A} (a : A) : M A := ([], Ok a).

Definition bind {A B} (m : M A) (k : A -> M B) : M B :=
  match m with
  | (t, Ok a) => let (t', r) := k a in (t ++ t', r)
  | (t, Raise e) => (t, Raise e)
  end.

Definition raise {A} (e : exn) : M A := ([], Raise e).

Definition emit (e : event) : M unit := ([e], Ok tt).

Definition print (m : message) : M unit := emit (EvPrint m).

(** Lifting of a call whose outcome the world decides. *)
Definition call {A} (e : event) (r : outcome A) : M A := ([e], r).

(** [try: m  except <class>: h e]; [handles e] tells whether the clause
    matches the exception. *)
Definition try_except {A} (m : M A) (handles : exn -> bool) (h : exn -> M A) : M A :=
  match m with
  | (t, Raise e) =>
      if handles e then let (t', r) := h e in (t ++ t', r) else (t, Raise e)
  | ok => ok
  end.

End Script.

Notation "x <- m ;; k" := (bind m (fun x => k))
  (at level 61, m at next level, right associativity).
Notation "m ;;; k" := (bind m (fun _ => k))
  (at level 61, right associativity).

(** ** The script *)

Section Program.

Context {flavour : PathFlavour}.

(** A value the world has already decided, with no event of its own. *)
Definition lift {A} (r : outcome A) : M A := ([], r).

(** [sorted(l, key=key, reverse=True)]: descending by key, and elements
    with equal keys keep the order they had in [l]. *)
Fixpoint insert_reverse {A} (key : A -> Z) (x : A) (l : list A) : list A :=
  match l with
  | [] => [x]
  | y :: ys => if key y <=? key x then x :: l else y :: insert_reverse key x ys
  end.

Definition sorted_reverse {A} (key : A -> Z) (l : list A) : list A :=
  fold_right (insert_reverse key) [] l.

(** A list whose keys never increase. *)
Definition descending {A} (key : A -> Z) (l : list A) : Prop :=
  StronglySorted (fun a b => key b <= key a) l.

(** The first element, in the order of the list, that carries the
    greatest key. *)
Fixpoint first_max {A} (key : A -> Z) (l : list A) : option A :=
  match l with
  | [] => None
  | x :: xs =>
      match first_max key xs with
      | None => Some x
      | Some y => if key y <=? key x then Some x else Some y
      end
  end.

(** The time of a path that can be stat'ed. *)
Definition stat_time (fs : filesystem) (p : Path) : Z :=
  match fs_stat fs p with
  | Ok t => t
  | Raise _ => 0
  end.

(** The paths whose [stat] is called when the keys of [ps] are computed:
    those up to the first whose [stat] raises, that one included. *)
Fixpoint stat_prefix (fs : filesystem) (ps : list Path) : list Path :=
  match ps with
  | [] => []
  | p :: ps' =>
      p :: match fs_stat fs p with
           | Ok _ => stat_prefix fs ps'
           | Raise _ => []
           end
  end.

(** The keys of the sort: the key function is called once per element,
    in the order of the input, before anything is compared; the first call
    that raises ends the sort. *)
Fixpoint stat_all (fs : filesystem) (ps : list Path) : M (list (Path * Z)) :=
  match ps with
  | [] => ret []
  | p :: ps' =>
      t <- call (EvStat p) (fs_stat fs p) ;;
      keyed <- stat_all fs ps' ;;
      ret ((p, t) :: keyed)
  end.

(** <<
    candidates = sorted(Path(__file__).parent.glob("*.pt"),
                        key=lambda p: p.stat().st_mtime, reverse=True)
>> *)
Definition newest_first (fs : filesystem) : M (list Path) :=
  emit (EvGlob (fs_script_dir fs)) ;;;
  keyed <- stat_all fs (glob_pt fs) ;;
  ret (map fst (sorted_reverse snd keyed)).

(** <<
    for c in candidates:
        if c.is_file():
            return c
>>
    [Some c] is the early return, [None] the end of the loop. *)
Fixpoint first_file (fs : filesystem) (candidates : list Path) : M (option Path) :=
  match candidates with
  | [] => ret None
  | c :: cs =>
      found <- call (EvIsFile c) (fs_is_file fs c) ;;
      if found then ret (Some c) else first_file fs cs
  end.

Definition not_found_message (weights_spec : string) (candidates : list Path) : string :=
  "Could not find weights file for spec '" ++ weights_spec ++ "'. Tried: "
    ++ String.concat ", " (map path_str candidates).

Definition auto_not_found : string :=
  "AUTO could not find any .pt files next to the script".

(** The candidate list of a spec that is not the sentinel. *)
Definition build_candidates (fs : filesystem) (spec : Path) : list Path :=
  if is_absolute spec then [spec]
  else [spec; joinpath (fs_script_dir fs) spec].

Definition resolve_weights_path (fs : filesystem) (weights_spec : string) : M Path :=
  let spec := mkPath weights_spec in
  if String.eqb (PyStr.upper weights_spec) "AUTO" then
    candidates <- newest_first fs ;;
    match candidates with
    | c :: _ => ret c
    | [] => raise (FileNotFoundError auto_not_found)
    end
  else
    let candidates := build_candidates fs spec in
    found <- first_file fs candidates ;;
    match found with
    | Some c => ret c
    | None => raise (FileNotFoundError (not_found_message weights_spec candidates))
    end.

(** The routine as section 4 of the specification words it: absolute
    path, then working directory, then script directory, and the
    newest-file search after those, when the sentinel is given.  Kept for
    comparison with [resolve_weights_path]. *)
Definition resolve_in_listed_order (fs : filesystem) (weights_spec : string) : M Path :=
  let spec := mkPath weights_spec in
  let candidates := build_candidates fs spec in
  found <- first_file fs candidates ;;
  match found with
  | Some c => ret c
  | None =>
      if String.eqb (PyStr.upper weights_spec) "AUTO" then
        newest <- newest_first fs ;;
        match newest with
        | c :: _ => ret c
        | [] => raise (FileNotFoundError auto_not_found)
        end
      else raise (FileNotFoundError (not_found_message weights_spec candidates))
  end.

Definition DEFAULT_WEIGHTS : string := "d:\\AI-YOLO\\best.pt".

(** [args.weights if args.weights else DEFAULT_WEIGHTS] *)
Definition choose_weights (given : option string) : string :=
  match given with
  | Some s => if PyStr.truthy s then s else DEFAULT_WEIGHTS
  | None => DEFAULT_WEIGHTS
  end.

(** The values of [args.weights] that Python takes as false: [None] and
    the empty string. *)
Definition falsy (given : option string) : bool :=
  match given with
  | Some s => negb (PyStr.truthy s)
  | None => true
  end.

(** [str(e)] for the exception the script prints: the message of a
    [FileNotFoundError]. *)
Definition exn_str (e : exn) : string :=
  match e with
  | FileNotFoundError msg => msg
  | _ => EmptyString
  end.

Definition is_FileNotFoundError (e : exn) : bool :=
  match e with FileNotFoundError _ => true | _ => false end.

(** [names.get(cls_id, default)] on the items of a dict. *)
Fixpoint dict_get (d : list (Z * string)) (k : Z) (default : string) : string :=
  match d with
  | [] => default
  | (k', v) :: d' => if Z.eqb k' k then v else dict_get d' k default
  end.

(** One turn of the loop over [enumerate(boxes)]. *)
Definition summarize_box (names : option (list (Z * string))) (i : Z) (b : box) : M unit :=
  cls_id <- match box_cls b with Some r => lift r | None => ret (-1) end ;;
  conf <- match box_conf b with Some r => lift r | None => ret 0%Q end ;;
  let label :=
    match names with
    | Some d => dict_get d cls_id (PyStr.of_int cls_id)
    | None => PyStr.of_int cls_id
    end in
  print (MsgDetection (i + 1) label conf).

Fixpoint summarize_boxes (names : option (list (Z * string))) (i : Z) (bs : list box) : M unit :=
  match bs with
  | [] => ret tt
  | b :: bs' => summarize_box names i b ;;; summarize_boxes names (i + 1) bs'
  end.

(** The body of the [try] statement of the summary. *)
Definition summary_body (names : option (list (Z * string))) (first : result) : M unit :=
  bx <- lift (result_boxes first) ;;
  match bx with
  | None => print MsgNoDetections
  | Some b =>
      n <- lift (boxes_len b) ;;
      if 0 <? n then summarize_boxes names 0 (boxes_items b)
      else print MsgNoDetections
  end.

(** <<
    try: ...
    except Exception:
        print("  Parsed results summary unavailable (non-critical).")
>> *)
Definition summary (names : option (list (Z * string))) (first : result) : M unit :=
  try_except (summary_body names first) is_Exception (fun _ => print MsgUnavailable).

Definition predict_call (args : namespace) (src : Z + string) : predict_args :=
  {| pa_source := src;
     pa_conf := conf args;
     pa_imgsz := imgsz args;
     pa_device := if PyStr.truthy (device args) then Some (device args) else None;
     pa_show := show args;
     pa_save := save args;
     pa_stream := false;
     pa_verbose := true |}.

(** The statements of [main] after the weights are resolved. *)
Definition run_model (w : world) (args : namespace) (weights_path : Path) : M unit :=
  print (MsgUsingWeights weights_path) ;;;
  if check args then print MsgCheckOk
  else
    m <- call (EvYOLO (path_str weights_path)) (w_YOLO w (path_str weights_path)) ;;
    src <- lift (coerce_source (w_int w) (source args)) ;;
    print (MsgStarting src) ;;;
    results <- call (EvPredict m (predict_call args src))
                    (w_predict w m (predict_call args src)) ;;
    match results with
    | Some (first :: _) =>
        print MsgDone ;;;
        summary (model_names m) first
    | _ => ret tt
    end.

(** <<
    try:
        weights_path = resolve_weights_path(weights_spec)
    except FileNotFoundError as e:
        print(str(e)); print("Hint: ..."); sys.exit(1)
>> *)
Definition resolve_or_exit (fs : filesystem) (weights_spec : string) : M Path :=
  try_except (resolve_weights_path fs weights_spec) is_FileNotFoundError
    (fun e => print (MsgError (exn_str e)) ;;; print MsgHint ;;; raise (SystemExit 1)).

(** [parse_args()]: [argparse] returns the flags, or leaves through
    [SystemExit] (a usage error, [--help]). *)
Definition parse_args (w : world) : M namespace := call EvParseArgs (w_args w).

Definition main (w : world) : M unit :=
  args <- parse_args w ;;
  let weights_spec := choose_weights (weights args) in
  weights_path <- resolve_or_exit (w_fs w) weights_spec ;;
  run_model w args weights_path.

(** The status the interpreter exits with: 0 when [main] returns, the
    code of a [SystemExit], 130 for an interrupt, and 1 for any other
    exception that reaches the top level. *)
Definition exit_status (r : outcome unit) : Z :=
  match r with
  | Ok _ => 0
  | Raise (SystemExit code) => code
  | Raise KeyboardInterrupt => 130
  | Raise _ => 1
  end.

(** *** The steps of a run

    The events that belong to each of the five steps of the script.
    Progress and error lines belong to no step. *)
Inductive step : Type :=
| StepParse | StepResolve | StepConstruct | StepPredict | StepSummary.

Definition step_of (e : event) : option step :=
  match e with
  | EvParseArgs => Some StepParse
  | EvIsFile _ | EvGlob _ | EvStat _ => Some StepResolve
  | EvYOLO _ => Some StepConstruct
  | EvPredict _ _ => Some StepPredict
  | EvPrint MsgDone | EvPrint (MsgDetection _ _ _)
  | EvPrint MsgNoDetections | EvPrint MsgUnavailable => Some StepSummary
  | EvPrint _ => None
  end.

Definition rank (s : step) : nat :=
  match s with
  | StepParse => 0 | StepResolve => 1 | StepConstruct => 2
  | StepPredict => 3 | StepSummary => 4
  end.

Fixpoint steps (t : list event) : list step :=
  match t with
  | [] => []
  | e :: t' => match step_of e with Some s => s :: steps t' | None => steps t' end
  end.

(** The steps of a trace never go back to an earlier one. *)
Definition in_order (t : list event) : Prop :=
  StronglySorted (fun a b => (rank a <= rank b)%nat) (steps t).

(** A world that differs only in the flags [argparse] returned. *)
Definition with_args (w : world) (a : namespace) : world :=
  {| w_args := Ok a; w_fs := w_fs w; w_int := w_int w;
     w_YOLO := w_YOLO w; w_predict := w_predict w |}.

Definition with_weights (a : namespace) (o : option string) : namespace :=
  {| weights := o; source := source a; conf := conf a; imgsz := imgsz a;
     device := device a; show := show a; save := save a; check := check a |}.

Definition with_check (a : namespace) : namespace :=
  {| weights := weights a; source := source a; conf := conf a; imgsz := imgsz a;
     device := device a; show := show a; save := save a; check := true |}.

End Program.

(** ** Concrete worlds (POSIX flavour) *)

Module Examples.

(** A file system in which every call answers, given by the working
    directory, the strings of its regular files and the entries of the
    script's directory with their modification times. *)
Definition lookup_mtime (dir : Posix.path) (entries : list (string * Z)) (p : Posix.path) : Z :=
  match find (fun e => String.eqb (Posix.to_str (Posix.join dir (Posix.make (fst e))))
                                  (Posix.to_str p)) entries with
  | Some e => snd e
  | None => 0
  end.

Definition from_cwd (cwd : string) (p : Posix.path) : Posix.path :=
  if Posix.absolute p then p else Posix.join (Posix.make cwd) p.

Definition mk_fs (cwd script_dir : string) (files : list string)
    (entries : list (string * Z)) : filesystem :=
  {| fs_script_dir := Posix.make script_dir;
     fs_is_file := fun p : Path =>
       Ok (existsb (String.eqb (Posix.to_str (from_cwd cwd p))) files);
     fs_scandir := map fst entries;
     fs_stat := fun p : Path => Ok (lookup_mtime (Posix.make script_dir) entries p) |}.

(** Weights next to the script and in the working directory. *)
Definition fs_both : filesystem :=
  mk_fs "/home/user" "/opt/app"
    ["/home/user/best.pt"; "/opt/app/best.pt"; "/opt/app/old.pt"; "/opt/app/new.pt";
     "/opt/app/tie.pt"; "/opt/app/yolo-run-camera.py"; "/srv/models/fire.pt"]
    [("old.pt", 10); ("yolo-run-camera.py", 50); ("new.pt", 30); ("best.pt", 20);
     ("tie.pt", 30)].

(** Weights next to the script only. *)
Definition fs_script_only : filesystem :=
  mk_fs "/home/user" "/opt/app"
    ["/opt/app/best.pt"; "/opt/app/yolo-run-camera.py"]
    [("yolo-run-camera.py", 50); ("best.pt", 20)].

(** No weights anywhere. *)
Definition fs_empty : filesystem :=
  mk_fs "/home/user" "/opt/app"
    ["/opt/app/yolo-run-camera.py"]
    [("yolo-run-camera.py", 50)].

(** A regular file called AUTO in the working directory. *)
Definition fs_file_named_auto : filesystem :=
  mk_fs "/home/user" "/opt/app"
    ["/home/user/AUTO"; "/opt/app/best.pt"]
    [("best.pt", 20)].

Definition default_args : namespace :=
  {| weights := None; source := "0"; conf := 0.25%Q; imgsz := 640;
     device := ""; show := false; save := false; check := false |}.

(** The command line [--weights best.pt]. *)
Definition best_pt : namespace := with_weights default_args (Some "best.pt").

Definition fire_model : model :=
  {| model_names := Some [(0, "fire"); (1, "smoke"); (2, "human")] |}.

Definition two_boxes : boxes :=
  {| boxes_len := Ok 2;
     boxes_items := [ {| box_cls := Some (Ok 0); box_conf := Some (Ok 0.9%Q) |};
                      {| box_cls := Some (Ok 2); box_conf := None |} ] |}.

(** A [Boxes] object whose second element fails to give its class. *)
Definition drifted_boxes : boxes :=
  {| boxes_len := Ok 2;
     boxes_items := [ {| box_cls := Some (Ok 1); box_conf := Some (Ok 0.5%Q) |};
                      {| box_cls := Some (Raise (OtherException "IndexError"));
                         box_conf := Some (Ok 0.4%Q) |} ] |}.

(** The library works: the model loads and one frame gives two boxes. *)
Definition w_ok (a : namespace) (fs : filesystem) : world :=
  {| w_args := Ok a;
     w_fs := fs;
     w_int := fun _ => None;
     w_YOLO := fun _ => Ok fire_model;
     w_predict := fun _ _ => Ok (Some [ {| result_boxes := Ok (Some two_boxes) |} ]) |}.

(** The weights file is found but is not a model: the constructor raises. *)
Definition w_bad_weights (a : namespace) (fs : filesystem) : world :=
  {| w_args := Ok a;
     w_fs := fs;
     w_int := fun _ => None;
     w_YOLO := fun _ => Raise (OtherException "UnpicklingError");
     w_predict := fun _ _ => Ok (Some []) |}.

(** The camera cannot be opened: [predict] raises. *)
Definition w_no_camera (a : namespace) (fs : filesystem) : world :=
  {| w_args := Ok a;
     w_fs := fs;
     w_int := fun _ => None;
     w_YOLO := fun _ => Ok fire_model;
     w_predict := fun _ _ => Raise (OtherException "ConnectionError") |}.

(** The structure of the results changed: reading a box fails. *)
Definition w_drift (a : namespace) (fs : filesystem) : world :=
  {| w_args := Ok a;
     w_fs := fs;
     w_int := fun _ => None;
     w_YOLO := fun _ => Ok fire_model;
     w_predict := fun _ _ => Ok (Some [ {| result_boxes := Ok (Some drifted_boxes) |} ]) |}.

End Examples.

(** ** Notions for the further properties *)

(** The characters an integer literal is made of: digits, the two signs,
    the underscore and the white space [int()] strips. *)
Definition int_char (c : ascii) : bool :=
  PyStr.is_digit c || int_space c
  || Ascii.eqb c "+" || Ascii.eqb c "-" || Ascii.eqb c "_".

Section Notions.

Context {flavour : PathFlavour}.

(** The exception that reading a box raises, if any: the class is read
    before the confidence. *)
Definition box_failure (b : box) : option exn :=
  match box_cls b with
  | Some (Raise e) => Some e
  | _ => match box_conf b with
         | Some (Raise e) => Some e
         | _ => None
         end
  end.

(** The class and confidence a readable box shows, with the values the
    loop takes for a missing attribute. *)
Definition box_cls_id (b : box) : Z :=
  match box_cls b with Some (Ok c) => c | _ => -1 end.

Definition box_conf_value (b : box) : Q :=
  match box_conf b with Some (Ok q) => q | _ => 0%Q end.

(** What of the value of [predict] the script looks at: the first element
    of a non-empty list. *)
Definition first_result (r : outcome (option (list result))) : outcome (option result) :=
  match r with
  | Ok (Some (first :: _)) => Ok (Some first)
  | Ok _ => Ok None
  | Raise e => Raise e
  end.

(** A world with another detection result. *)
Definition with_predict (w : world)
    (f : model -> predict_args -> outcome (option (list result))) : world :=
  {| w_args := w_args w; w_fs := w_fs w; w_int := w_int w;
     w_YOLO := w_YOLO w; w_predict := f |}.

(** How many events of a trace belong to a step. *)
Definition step_count (s : step) (t : list event) : nat :=
  length (filter (fun x => Nat.eqb (rank x) (rank s)) (steps t)).

End Notions.

(** *** Further concrete worlds (POSIX flavour) *)

Module Scenarios.

Import Examples.

(** The directory secret of the working directory may not be searched:
    the look-up of secret/best.pt raises, although the script's directory
    holds a secret/best.pt. *)
Definition fs_unsearchable : filesystem :=
  {| fs_script_dir := Posix.make "/opt/app";
     fs_is_file := fun p : Path =>
       if String.eqb (Posix.to_str p) "secret/best.pt"
       then Raise (OtherException "PermissionError")
       else Ok (String.eqb (Posix.to_str p) "/opt/app/secret/best.pt");
     fs_scandir := ["yolo-run-camera.py"; "secret"];
     fs_stat := fun _ => Ok 0 |}.

(** The directory /root may not be searched by the user who runs the
    script. *)
Definition fs_locked : filesystem :=
  {| fs_script_dir := Posix.make "/opt/app";
     fs_is_file := fun p : Path =>
       if String.eqb (Posix.to_str p) "/root/best.pt"
       then Raise (OtherException "PermissionError")
       else Ok false;
     fs_scandir := ["yolo-run-camera.py"];
     fs_stat := fun _ => Ok 0 |}.

(** The script's directory holds best.pt, then a link gone.pt that leads
    nowhere, then later.pt. *)
Definition fs_dangling : filesystem :=
  {| fs_script_dir := Posix.make "/opt/app";
     fs_is_file := fun p : Path => Ok (String.eqb (Posix.to_str p) "/opt/app/best.pt");
     fs_scandir := ["best.pt"; "gone.pt"; "later.pt"];
     fs_stat := fun p : Path =>
       if String.eqb (Posix.to_str p) "/opt/app/gone.pt"
       then Raise (FileNotFoundError "[Errno 2] No such file or directory: '/opt/app/gone.pt'")
       else Ok (lookup_mtime (Posix.make "/opt/app") [("best.pt", 20); ("later.pt", 40)] p) |}.

(** The script's directory holds a link loop.pt that leads to itself. *)
Definition fs_looping : filesystem :=
  {| fs_script_dir := Posix.make "/opt/app";
     fs_is_file := fun p : Path => Ok (String.eqb (Posix.to_str p) "/opt/app/best.pt");
     fs_scandir := ["loop.pt"; "best.pt"];
     fs_stat := fun p : Path =>
       if String.eqb (Posix.to_str p) "/opt/app/loop.pt"
       then Raise (OtherException "OSError")
       else Ok 20 |}.

(** The same directories as [fs_both], seen with other regular files. *)
Definition fs_other_files : filesystem :=
  mk_fs "/tmp" "/opt/app"
    []
    [("old.pt", 10); ("yolo-run-camera.py", 50); ("new.pt", 30); ("best.pt", 20);
     ("tie.pt", 30)].

(** The same files as [fs_both], with another listing of the script's
    directory. *)
Definition fs_other_listing : filesystem :=
  mk_fs "/home/user" "/opt/app"
    ["/home/user/best.pt"; "/opt/app/best.pt"; "/opt/app/old.pt"; "/opt/app/new.pt";
     "/opt/app/tie.pt"; "/opt/app/yolo-run-camera.py"; "/srv/models/fire.pt"]
    [("newer.pt", 99)].

(** Three boxes, the third without a class attribute and of a class the
    model does not name. *)
Definition three_boxes : list box :=
  [ {| box_cls := Some (Ok 0); box_conf := Some (Ok 0.9%Q) |};
    {| box_cls := Some (Ok 7); box_conf := Some (Ok 0.6%Q) |};
    {| box_cls := None; box_conf := None |} ].

Definition fire_names : list (Z * string) := [(0, "fire"); (1, "smoke"); (2, "human")].

(** A result whose second box fails and whose third is readable. *)
Definition broken_result : result :=
  {| result_boxes :=
       Ok (Some {| boxes_len := Ok 3;
                   boxes_items :=
                     [ {| box_cls := Some (Ok 1); box_conf := Some (Ok 0.5%Q) |};
                       {| box_cls := Some (Ok 0);
                          box_conf := Some (Raise (OtherException "TypeError")) |};
                       {| box_cls := Some (Ok 2); box_conf := Some (Ok 0.8%Q) |} ] |}) |}.

(** The library returns two frames; the second is never looked at. *)
Definition two_frames (m : model) (a : predict_args) : outcome (option (list result)) :=
  Ok (Some [ {| result_boxes := Ok (Some two_boxes) |}; broken_result ]).

Definition cuda_args : namespace :=
  {| weights := Some "best.pt"; source := "clip.mp4"; conf := 0.5%Q; imgsz := 320;
     device := "cuda:0"; show := true; save := false; check := false |}.

End Scenarios.

(** * Properties *)

(** ** Sorting newest first *)

Section SortedReverse.

Variable A : Type.
Variable key : A -> Z.

Lemma insert_reverse_perm (x : A) (l : list A) :
  Permutation (x :: l) (insert_reverse key x l).
Proof.
  induction l as [|y ys IH]; simpl.
  - apply Permutation_refl.
  - destruct (key y <=? key x).
    + apply Permutation_refl.
    + eapply perm_trans; [apply perm_swap|].
      apply perm_skip, IH.
Qed.

Lemma sorted_reverse_perm (l : list A) : Permutation l (sorted_reverse key l).
Proof.
  induction l as [|x xs IH]; simpl.
  - constructor.
  - eapply perm_trans; [apply perm_skip, IH|].
    apply insert_reverse_perm.
Qed.

Lemma sorted_reverse_In (l : list A) (x : A) :
  In x (sorted_reverse key l) <-> In x l.
Proof.
  split; intro H.
  - eapply Permutation_in; [apply Permutation_sym, sorted_reverse_perm | exact H].
  - eapply Permutation_in; [apply sorted_reverse_perm | exact H].
Qed.

Lemma insert_reverse_descending (x : A) (l : list A) :
  descending key l -> descending key (insert_reverse key x l).
Proof.
  unfold descending. induction l as [|y ys IH]; simpl; intro Hs.
  - repeat constructor.
  - inversion Hs as [|? ? Hys Hall]; subst.
    destruct (key y <=? key x) eqn:E.
    + apply Z.leb_le in E. constructor; [exact Hs|].
      constructor; [exact E|].
      eapply Forall_impl; [|exact Hall]. simpl. intros; lia.
    + apply Z.leb_gt in E. constructor; [apply IH, Hys|].
      rewrite Forall_forall. intros z Hz.
      eapply Permutation_in in Hz; [|apply Permutation_sym, insert_reverse_perm].
      destruct Hz as [<-|Hz]; [lia|].
      rewrite Forall_forall in Hall. apply Hall, Hz.
Qed.

Lemma sorted_reverse_descending (l : list A) : descending key (sorted_reverse key l).
Proof.
  induction l as [|x xs IH]; simpl.
  - constructor.
  - apply insert_reverse_descending, IH.
Qed.

(** The head of the sorted list carries the greatest key. *)
Lemma sorted_reverse_head_max (l : list A) (c : A) (cs : list A) :
  sorted_reverse key l = c :: cs ->
  In c l /\ forall q, In q l -> key q <= key c.
Proof.
  intro E. split.
  - apply sorted_reverse_In. rewrite E. now left.
  - intros q Hq. apply sorted_reverse_In in Hq. rewrite E in Hq.
    pose proof (sorted_reverse_descending l) as Hd. unfold descending in Hd.
    rewrite E in Hd. inversion Hd as [|? ? _ Hall]; subst.
    destruct Hq as [<-|Hq]; [lia|].
    rewrite Forall_forall in Hall. apply Hall, Hq.
Qed.

Lemma sorted_reverse_nil (l : list A) : sorted_reverse key l = [] -> l = [].
Proof.
  intro E. pose proof (sorted_reverse_perm l) as P. rewrite E in P.
  apply Permutation_sym, Permutation_nil in P. exact P.
Qed.

(** Stability at the head: among the elements with the greatest key the
    one that comes first in the input is the head of the result. *)
Lemma insert_reverse_head (x : A) (l : list A) :
  hd_error (insert_reverse key x l) =
    match l with
    | [] => Some x
    | y :: _ => if key y <=? key x then Some x else Some y
    end.
Proof.
  destruct l as [|y ys]; simpl; [reflexivity|].
  destruct (key y <=? key x); reflexivity.
Qed.

Lemma sorted_reverse_head_first_max (l : list A) :
  hd_error (sorted_reverse key l) = first_max key l.
Proof.
  induction l as [|x xs IH]; simpl; [reflexivity|].
  rewrite insert_reverse_head, <- IH.
  destruct (sorted_reverse key xs); reflexivity.
Qed.

Lemma first_max_none (l : list A) : first_max key l = None -> l = [].
Proof.
  destruct l as [|x xs]; simpl; [reflexivity|].
  destruct (first_max key xs) as [y|]; [|discriminate].
  destruct (key y <=? key x); discriminate.
Qed.

(** What [first_max] finds: everything before it is strictly older,
    nothing after it is newer. *)
Lemma first_max_split (l : list A) (p : A) :
  first_max key l = Some p ->
  exists before after,
    l = before ++ p :: after
    /\ (forall q, In q before -> key q < key p)
    /\ (forall q, In q after -> key q <= key p).
Proof.
  revert p. induction l as [|x xs IH]; intros p H; simpl in H; [discriminate|].
  destruct (first_max key xs) as [y|] eqn:E.
  - destruct (IH y eq_refl) as (b & a & Hxs & Hb & Ha).
    destruct (key y <=? key x) eqn:Hle; inversion H; subst p; clear H.
    + apply Z.leb_le in Hle. exists [], xs. split; [reflexivity|].
      split; [intros q []|]. intros q Hq. rewrite Hxs in Hq.
      apply in_app_or in Hq. destruct Hq as [Hq|[<-|Hq]].
      * specialize (Hb q Hq). lia.
      * exact Hle.
      * specialize (Ha q Hq). lia.
    + apply Z.leb_gt in Hle. exists (x :: b), a. split; [rewrite Hxs; reflexivity|].
      split; [|exact Ha]. intros q [<-|Hq]; [exact Hle|apply Hb, Hq].
  - inversion H; subst p. apply first_max_none in E. subst xs.
    exists [], []. split; [reflexivity|]. split; intros q [].
Qed.

(** Conversely, an element with everything before it strictly older and
    nothing after it newer is the one [first_max] finds. *)
Lemma first_max_at (before after : list A) (p : A) :
  (forall q, In q before -> key q < key p) ->
  (forall q, In q after -> key q <= key p) ->
  first_max key (before ++ p :: after) = Some p.
Proof.
  induction before as [|x b IH]; intros Hb Ha; simpl.
  - destruct (first_max key after) as [y|] eqn:E; [|reflexivity].
    destruct (first_max_split _ E) as (b' & a' & Hy & _ & _).
    assert (Hle : key y <= key p)
      by (apply Ha; rewrite Hy; apply in_or_app; right; now left).
    destruct (Z.leb_spec (key y) (key p)); [reflexivity|lia].
  - rewrite IH; [|intros q Hq; apply Hb; now right|exact Ha].
    specialize (Hb x (or_introl eq_refl)).
    destruct (Z.leb_spec (key p) (key x)); [lia|reflexivity].
Qed.

End SortedReverse.

(** Sorting on keys computed beforehand is sorting by the key function. *)
Lemma insert_reverse_decorated {A} (f : A -> Z) (x : A) (l : list A) :
  insert_reverse snd (x, f x) (map (fun y => (y, f y)) l) =
  map (fun y => (y, f y)) (insert_reverse f x l).
Proof.
  induction l as [|y ys IH]; simpl; [reflexivity|].
  destruct (f y <=? f x); simpl; [reflexivity|]. now rewrite IH.
Qed.

Lemma sorted_reverse_decorated {A} (f : A -> Z) (l : list A) :
  map fst (sorted_reverse snd (map (fun y => (y, f y)) l)) = sorted_reverse f l.
Proof.
  assert (H : sorted_reverse snd (map (fun y => (y, f y)) l)
              = map (fun y => (y, f y)) (sorted_reverse f l)).
  { induction l as [|x xs IH]; simpl; [reflexivity|].
    rewrite IH. apply insert_reverse_decorated. }
  rewrite H, map_map. simpl. apply map_id.
Qed.

(** ** POSIX paths: a path is read back from its string *)

Section PosixPaths.

Import Posix.

Lemma split_no_slash (s : string) :
  Forall (fun w => no_slash w = true) (PyStr.split "/" s).
Proof.
  induction s as [|c s IH]; simpl; [repeat constructor|].
  destruct (Ascii.eqb c "/") eqn:E.
  - constructor; [reflexivity|exact IH].
  - destruct (PyStr.split "/" s) as [|w ws].
    + repeat constructor. simpl. now rewrite E.
    + inversion IH as [|? ? Hw Hws]; subst.
      constructor; [|exact Hws]. simpl. now rewrite E, Hw.
Qed.

Lemma make_well_formed (s : string) : well_formed (make s).
Proof.
  split.
  - simpl. unfold parse_root.
    destruct (negb (slash_at 0 s)); [now left|].
    destruct (negb (slash_at 1 s) || slash_at 2 s); auto.
  - simpl. rewrite Forall_forall. intros w Hw.
    apply filter_In in Hw. destruct Hw as [Hin Hk]. split; [exact Hk|].
    pose proof (split_no_slash s) as H. rewrite Forall_forall in H. now apply H.
Qed.

Lemma split_word (w : string) : no_slash w = true -> PyStr.split "/" w = [w].
Proof.
  induction w as [|c w IH]; simpl; [reflexivity|].
  intro H. apply andb_prop in H. destruct H as [Hc Hw].
  apply negb_true_iff in Hc. rewrite Hc, (IH Hw). reflexivity.
Qed.

Lemma split_word_slash (w rest : string) :
  no_slash w = true ->
  PyStr.split "/" (w ++ String "/" rest) = w :: PyStr.split "/" rest.
Proof.
  induction w as [|c w IH]; simpl; [reflexivity|].
  intro H. apply andb_prop in H. destruct H as [Hc Hw].
  apply negb_true_iff in Hc. rewrite Hc, (IH Hw). reflexivity.
Qed.

Lemma split_concat (w : string) (ws : list string) :
  Forall (fun w => no_slash w = true) (w :: ws) ->
  PyStr.split "/" (String.concat "/" (w :: ws)) = w :: ws.
Proof.
  revert w. induction ws as [|v vs IH]; intros w H; inversion H as [|? ? Hw Hws]; subst.
  - simpl. apply split_word, Hw.
  - change (String.concat "/" (w :: v :: vs))
      with (w ++ String "/" (String.concat "/" (v :: vs)))%string.
    rewrite (split_word_slash w _ Hw), (IH v Hws). reflexivity.
Qed.

Lemma filter_keep_part (ws : list string) :
  Forall (fun w => keep_part w = true /\ no_slash w = true) ws ->
  filter keep_part ws = ws.
Proof.
  induction 1 as [|w ws [Hk _] _ IH]; simpl; [reflexivity|].
  rewrite Hk, IH. reflexivity.
Qed.

Lemma parts_no_slash (ws : list string) :
  Forall (fun w => keep_part w = true /\ no_slash w = true) ws ->
  Forall (fun w => no_slash w = true) ws.
Proof.
  intro H. eapply Forall_impl; [|exact H]. simpl. tauto.
Qed.

(** The string of the parts does not begin with a slash. *)
Lemma concat_no_leading_slash (ws : list string) :
  Forall (fun w => keep_part w = true /\ no_slash w = true) ws ->
  slash_at 0 (String.concat "/" ws) = false.
Proof.
  destruct 1 as [|w ws [Hk Hn] Hws]; [reflexivity|].
  destruct w as [|c w]; [discriminate Hk|].
  simpl in Hn. apply andb_prop in Hn. destruct Hn as [Hc _].
  apply negb_true_iff in Hc.
  destruct ws; unfold slash_at; simpl; exact Hc.
Qed.

Lemma parts_of_concat (ws : list string) :
  Forall (fun w => keep_part w = true /\ no_slash w = true) ws ->
  filter keep_part (PyStr.split "/" (String.concat "/" ws)) = ws.
Proof.
  intro H. destruct ws as [|w ws]; [reflexivity|].
  rewrite (split_concat (parts_no_slash H)). apply filter_keep_part, H.
Qed.

(** [Path(str(p)) == p] *)
Lemma make_to_str (p : path) : well_formed p -> make (to_str p) = p.
Proof.
  destruct p as [r ws]. unfold well_formed. simpl. intros [Hr Hws].
  pose proof (concat_no_leading_slash Hws) as H0.
  pose proof (parts_of_concat Hws) as Hp.
  unfold make, to_str. simpl root. simpl parts.
  destruct Hr as [Hr|[Hr|Hr]]; subst r.
  - destruct ws as [|w ws]; [reflexivity|].
    unfold parse_root.
    change ("" ++ String.concat "/" (w :: ws))%string
      with (String.concat "/" (w :: ws)).
    rewrite H0, Hp. reflexivity.
  - change ("/" ++ String.concat "/" ws)%string
      with (String "/" (String.concat "/" ws)).
    unfold parse_root.
    change (slash_at 0 (String "/" (String.concat "/" ws))) with true.
    change (slash_at 1 (String "/" (String.concat "/" ws)))
      with (slash_at 0 (String.concat "/" ws)).
    rewrite H0. simpl. rewrite Hp. reflexivity.
  - change ("//" ++ String.concat "/" ws)%string
      with (String "/" (String "/" (String.concat "/" ws))).
    unfold parse_root.
    change (slash_at 0 (String "/" (String "/" (String.concat "/" ws)))) with true.
    change (slash_at 1 (String "/" (String "/" (String.concat "/" ws)))) with true.
    change (slash_at 2 (String "/" (String "/" (String.concat "/" ws))))
      with (slash_at 0 (String.concat "/" ws)).
    rewrite H0. simpl. rewrite Hp. reflexivity.
Qed.

(** The path of a spec is a fixed point: writing it and reading it back
    gives the same path. *)
Lemma make_to_str_make (s : string) : make (to_str (make s)) = make s.
Proof.
  apply make_to_str, make_well_formed.
Qed.

End PosixPaths.

(** ** Weights resolution *)

Section Resolution.

Context {flavour : PathFlavour}.

Lemma bind_ok {A B} (t : list event) (a : A) (k : A -> M B) :
  bind (t, Ok a) k = (t ++ fst (k a), snd (k a)).
Proof.
  unfold bind. destruct (k a). reflexivity.
Qed.

Lemma stat_all_trace (fs : filesystem) (ps : list Path) :
  fst (stat_all fs ps) = map EvStat (stat_prefix fs ps).
Proof.
  induction ps as [|p ps IH]; simpl; [reflexivity|].
  unfold call. destruct (fs_stat fs p) as [t|e]; simpl; [|reflexivity].
  destruct (stat_all fs ps) as [u [keyed|e]]; simpl in *; now rewrite IH, ?app_nil_r.
Qed.

(** When every path can be stat'ed, the keys are the times. *)
Lemma stat_all_ok (fs : filesystem) (ps : list Path) :
  (forall p, In p ps -> exists t, fs_stat fs p = Ok t) ->
  stat_all fs ps = (map EvStat ps, Ok (map (fun p => (p, stat_time fs p)) ps)).
Proof.
  induction ps as [|p ps IH]; intro H; simpl; [reflexivity|].
  destruct (H p (or_introl eq_refl)) as [t Ht].
  unfold call, stat_time at 1. rewrite Ht.
  rewrite IH by (intros q Hq; apply H; now right).
  simpl. rewrite app_nil_r. reflexivity.
Qed.

(** The first path that cannot be stat'ed ends the sort. *)
Lemma stat_all_raise (fs : filesystem) (before : list Path) (p : Path)
    (after : list Path) (e : exn) :
  (forall q, In q before -> exists t, fs_stat fs q = Ok t) ->
  fs_stat fs p = Raise e ->
  stat_all fs (before ++ p :: after) = (map EvStat (before ++ [p]), Raise e).
Proof.
  induction before as [|q qs IH]; intros H Hp; simpl.
  - unfold call. rewrite Hp. reflexivity.
  - destruct (H q (or_introl eq_refl)) as [t Ht]. unfold call. rewrite Ht.
    rewrite IH by (try (intros x Hx; apply H; now right); assumption).
    reflexivity.
Qed.

Lemma stat_prefix_ok (fs : filesystem) (ps : list Path) :
  (forall p, In p ps -> exists t, fs_stat fs p = Ok t) -> stat_prefix fs ps = ps.
Proof.
  induction ps as [|p ps IH]; intro H; simpl; [reflexivity|].
  destruct (H p (or_introl eq_refl)) as [t ->].
  rewrite IH by (intros q Hq; apply H; now right). reflexivity.
Qed.

Lemma stat_prefix_raise (fs : filesystem) (before : list Path) (p : Path)
    (after : list Path) (e : exn) :
  (forall q, In q before -> exists t, fs_stat fs q = Ok t) ->
  fs_stat fs p = Raise e ->
  stat_prefix fs (before ++ p :: after) = before ++ [p].
Proof.
  induction before as [|q qs IH]; intros H Hp; simpl.
  - rewrite Hp. reflexivity.
  - destruct (H q (or_introl eq_refl)) as [t ->].
    rewrite IH by (try (intros x Hx; apply H; now right); assumption).
    reflexivity.
Qed.

Lemma newest_first_eq (fs : filesystem) :
  newest_first fs =
    (EvGlob (fs_script_dir fs) :: map EvStat (stat_prefix fs (glob_pt fs)),
     match snd (stat_all fs (glob_pt fs)) with
     | Ok keyed => Ok (map fst (sorted_reverse snd keyed))
     | Raise e => Raise e
     end).
Proof.
  unfold newest_first. rewrite <- stat_all_trace.
  destruct (stat_all fs (glob_pt fs)) as [t [keyed|e]]; simpl;
    rewrite ?app_nil_r; reflexivity.
Qed.

(** What the sentinel branch does, in one equation. *)
Lemma resolve_sentinel (fs : filesystem) (s : string) :
  PyStr.upper s = "AUTO" ->
  resolve_weights_path fs s =
    (EvGlob (fs_script_dir fs) :: map EvStat (stat_prefix fs (glob_pt fs)),
     match snd (stat_all fs (glob_pt fs)) with
     | Ok keyed =>
         match map fst (sorted_reverse snd keyed) with
         | c :: _ => Ok c
         | [] => Raise (FileNotFoundError auto_not_found)
         end
     | Raise e => Raise e
     end).
Proof.
  intro H. unfold resolve_weights_path. rewrite H, String.eqb_refl.
  rewrite newest_first_eq.
  destruct (snd (stat_all fs (glob_pt fs))) as [keyed|e]; [|reflexivity].
  unfold bind.
  destruct (map fst (sorted_reverse snd keyed)); simpl;
    rewrite app_nil_r; reflexivity.
Qed.

(** What the other branch does: the loop over the candidates. *)
Lemma resolve_plain (fs : filesystem) (s : string) :
  String.eqb (PyStr.upper s) "AUTO" = false ->
  resolve_weights_path fs s =
    let candidates := build_candidates fs (mkPath s) in
    match first_file fs candidates with
    | (t, Ok (Some c)) => (t, Ok c)
    | (t, Ok None) => (t, Raise (FileNotFoundError (not_found_message s candidates)))
    | (t, Raise e) => (t, Raise e)
    end.
Proof.
  intro H. unfold resolve_weights_path. rewrite H. cbv zeta. unfold bind.
  destruct (first_file fs (build_candidates fs (mkPath s))) as [t [[c|]|e]];
    simpl; rewrite ?app_nil_r; reflexivity.
Qed.

Lemma first_file_one (fs : filesystem) (c : Path) :
  first_file fs [c] =
    ([EvIsFile c],
     match fs_is_file fs c with
     | Ok true => Ok (Some c)
     | Ok false => Ok None
     | Raise e => Raise e
     end).
Proof.
  simpl. unfold call. destruct (fs_is_file fs c) as [[|]|e]; reflexivity.
Qed.

Lemma first_file_two (fs : filesystem) (c d : Path) :
  first_file fs [c; d] =
    match fs_is_file fs c with
    | Ok true => ([EvIsFile c], Ok (Some c))
    | Raise e => ([EvIsFile c], Raise e)
    | Ok false =>
        ([EvIsFile c; EvIsFile d],
         match fs_is_file fs d with
         | Ok true => Ok (Some d)
         | Ok false => Ok None
         | Raise e => Raise e
         end)
    end.
Proof.
  simpl. unfold call. destruct (fs_is_file fs c) as [[|]|e]; try reflexivity.
  destruct (fs_is_file fs d) as [[|]|e]; reflexivity.
Qed.

Lemma glob_pt_In (fs : filesystem) (p : Path) :
  In p (glob_pt fs) <->
  exists name, In name (fs_scandir fs)
            /\ PyStr.ends_with ".pt" (normcase name) = true
            /\ p = joinpath (fs_script_dir fs) (mkPath name).
Proof.
  unfold glob_pt. rewrite in_map_iff. split.
  - intros (name & <- & Hin). apply filter_In in Hin. destruct Hin as [Hin Hm].
    exists name. auto.
  - intros (name & Hin & Hm & ->). exists name. split; [reflexivity|].
    apply filter_In. auto.
Qed.

(** C1: a relative spec that is not the sentinel is first looked up as it
    is, which the system resolves from the working directory, and only
    when that look-up answers [False] is it looked up under the script's
    directory.  The first of the two that the system reports as an
    existing file is returned; when the system reports neither as one, the
    call raises [FileNotFoundError]; and a look-up that raises ends the
    call with its exception. *)
Theorem resolve_relative_cwd_before_script_dir (fs : filesystem) (s : string) :
  String.eqb (PyStr.upper s) "AUTO" = false ->
  is_absolute (mkPath s) = false ->
  let spec := mkPath s in
  let beside := joinpath (fs_script_dir fs) spec in
  resolve_weights_path fs s =
    match fs_is_file fs spec with
    | Ok true => ([EvIsFile spec], Ok spec)
    | Raise e => ([EvIsFile spec], Raise e)
    | Ok false =>
        ([EvIsFile spec; EvIsFile beside],
         match fs_is_file fs beside with
         | Ok true => Ok beside
         | Ok false =>
             Raise (FileNotFoundError (not_found_message s [spec; beside]))
         | Raise e => Raise e
         end)
    end.
Proof.
  intros Hs Hrel. cbv zeta.
  rewrite (resolve_plain fs s Hs). cbv zeta.
  unfold build_candidates. rewrite Hrel, first_file_two.
  destruct (fs_is_file fs (mkPath s)) as [[|]|e]; try reflexivity.
  destruct (fs_is_file fs (joinpath (fs_script_dir fs) (mkPath s))) as [[|]|e];
    reflexivity.
Qed.

Lemma map_split_at {A B} (f : A -> B) (l : list A) (b : list B) (c : B) (a : list B) :
  map f l = b ++ c :: a ->
  exists lb x la, l = lb ++ x :: la /\ b = map f lb /\ c = f x /\ a = map f la.
Proof.
  revert b. induction l as [|y ys IH]; intros b H.
  - destruct b; discriminate H.
  - destruct b as [|z zs]; simpl in H; inversion H; subst.
    + exists [], y, ys. auto.
    + destruct (IH zs H2) as (lb & x & la & -> & -> & -> & ->).
      exists (y :: lb), x, la. auto.
Qed.

(** C2: for the sentinel ['AUTO'] the entries of the script's directory
    whose name matches [*.pt] are stat'ed in the order of the listing.
    When none matches, the call raises [FileNotFoundError].  When all can
    be stat'ed, the call returns the one with the greatest modification
    time (of several with that time, the one listed first).  The first
    that cannot be stat'ed ends the call with the exception of its
    [stat].  Conversely an entry that can be stat'ed, with every matching
    entry before it strictly older and none after it newer, is the one
    returned. *)
Theorem resolve_auto_newest (fs : filesystem) :
  let matches := fun name => PyStr.ends_with ".pt" (normcase name) in
  let entry := fun name => joinpath (fs_script_dir fs) (mkPath name) in
  ((forall name, In name (fs_scandir fs) -> matches name = false) ->
   resolve_weights_path fs "AUTO" =
     ([EvGlob (fs_script_dir fs)], Raise (FileNotFoundError auto_not_found)))
  /\
  ((exists name, In name (fs_scandir fs) /\ matches name = true) ->
   (forall name, In name (fs_scandir fs) -> matches name = true ->
      exists t, fs_stat fs (entry name) = Ok t) ->
   exists name t,
     In name (fs_scandir fs) /\ matches name = true
     /\ fs_stat fs (entry name) = Ok t
     /\ resolve_weights_path fs "AUTO" =
          (EvGlob (fs_script_dir fs)
             :: map (fun n => EvStat (entry n)) (filter matches (fs_scandir fs)),
           Ok (entry name))
     /\ (forall other t', In other (fs_scandir fs) -> matches other = true ->
           fs_stat fs (entry other) = Ok t' -> t' <= t)
     /\ exists before after,
          filter matches (fs_scandir fs) = before ++ name :: after
          /\ (forall other t', In other before ->
                fs_stat fs (entry other) = Ok t' -> t' < t)
          /\ (forall other t', In other after ->
                fs_stat fs (entry other) = Ok t' -> t' <= t))
  /\
  (forall before name after t,
     filter matches (fs_scandir fs) = before ++ name :: after ->
     fs_stat fs (entry name) = Ok t ->
     (forall other, In other before ->
        exists t', fs_stat fs (entry other) = Ok t' /\ t' < t) ->
     (forall other, In other after ->
        exists t', fs_stat fs (entry other) = Ok t' /\ t' <= t) ->
     resolve_weights_path fs "AUTO" =
       (EvGlob (fs_script_dir fs)
          :: map (fun n => EvStat (entry n)) (filter matches (fs_scandir fs)),
        Ok (entry name)))
  /\
  (forall before name after e,
     filter matches (fs_scandir fs) = before ++ name :: after ->
     (forall other, In other before -> exists t, fs_stat fs (entry other) = Ok t) ->
     fs_stat fs (entry name) = Raise e ->
     resolve_weights_path fs "AUTO" =
       (EvGlob (fs_script_dir fs)
          :: map (fun n => EvStat (entry n)) (before ++ [name]),
        Raise e)).
Proof.
  intros matches entry.
  assert (Hg : glob_pt fs = map entry (filter matches (fs_scandir fs))) by reflexivity.
  pose proof (resolve_sentinel fs "AUTO" eq_refl) as Hres.
  split; [|split; [|split]].
  - intro Hnone.
    assert (E : filter matches (fs_scandir fs) = []).
    { destruct (filter matches (fs_scandir fs)) as [|n ns] eqn:E; [reflexivity|].
      assert (Hin : In n (filter matches (fs_scandir fs))) by (rewrite E; now left).
      apply filter_In in Hin. destruct Hin as [Hin Hm].
      rewrite (Hnone n Hin) in Hm. discriminate. }
    rewrite Hres, Hg, E. reflexivity.
  - intros (name & Hin & Hm) Hstat.
    assert (Hall : forall p, In p (glob_pt fs) -> exists t, fs_stat fs p = Ok t).
    { intros p Hp. apply glob_pt_In in Hp. destruct Hp as (n & Hn & Hnm & ->).
      apply Hstat; assumption. }
    rewrite (stat_prefix_ok fs (glob_pt fs) Hall), (stat_all_ok fs (glob_pt fs) Hall)
      in Hres.
    simpl snd in Hres. cbv beta iota in Hres.
    rewrite (sorted_reverse_decorated (stat_time fs) (glob_pt fs)) in Hres.
    destruct (sorted_reverse (stat_time fs) (glob_pt fs)) as [|c cs] eqn:E.
    { apply sorted_reverse_nil in E.
      assert (Hp : In (entry name) (glob_pt fs)) by (apply glob_pt_In; eauto).
      rewrite E in Hp. destruct Hp. }
    pose proof (sorted_reverse_head_first_max (stat_time fs) (glob_pt fs)) as Hfm.
    rewrite E in Hfm. simpl in Hfm. symmetry in Hfm.
    apply first_max_split in Hfm. destruct Hfm as (b & a & Hsplit & Hb & Ha).
    rewrite Hg in Hsplit.
    destruct (map_split_at entry _ _ _ _ Hsplit) as (nb & n & na & Hn & -> & -> & ->).
    assert (Hnin : In n (filter matches (fs_scandir fs)))
      by (rewrite Hn; apply in_or_app; right; now left).
    apply filter_In in Hnin. destruct Hnin as [Hnin Hnm].
    destruct (Hstat n Hnin Hnm) as [t Ht].
    assert (Htime : stat_time fs (entry n) = t) by (unfold stat_time; now rewrite Ht).
    assert (Hval : forall other t', fs_stat fs (entry other) = Ok t' ->
                     stat_time fs (entry other) = t')
      by (intros other t' H; unfold stat_time; now rewrite H).
    exists n, t. split; [exact Hnin|]. split; [exact Hnm|]. split; [exact Ht|].
    split; [rewrite Hres, Hg, map_map; reflexivity|]. split.
    + intros other t' Ho Hom Hot.
      destruct (sorted_reverse_head_max _ _ E) as [_ Hmax].
      rewrite <- Htime, <- (Hval other t' Hot). apply Hmax.
      apply glob_pt_In. eauto.
    + exists nb, na. split; [exact Hn|]. split.
      * intros other t' Ho Hot. rewrite <- Htime, <- (Hval other t' Hot).
        apply Hb. apply in_map. exact Ho.
      * intros other t' Ho Hot. rewrite <- Htime, <- (Hval other t' Hot).
        apply Ha. apply in_map. exact Ho.
  - intros before name after t Hsplit Hname Hbefore Hafter.
    assert (Hgl : glob_pt fs = map entry before ++ entry name :: map entry after)
      by (rewrite Hg, Hsplit, map_app; reflexivity).
    assert (Htime : stat_time fs (entry name) = t)
      by (unfold stat_time; now rewrite Hname).
    assert (Hall : forall p, In p (glob_pt fs) -> exists t, fs_stat fs p = Ok t).
    { intros p Hp. rewrite Hgl in Hp. apply in_app_or in Hp.
      destruct Hp as [Hp|[<-|Hp]]; [|eauto|];
        apply in_map_iff in Hp; destruct Hp as (o & <- & Ho).
      - destruct (Hbefore o Ho) as (t' & Ht' & _). eauto.
      - destruct (Hafter o Ho) as (t' & Ht' & _). eauto. }
    rewrite (stat_prefix_ok fs (glob_pt fs) Hall), (stat_all_ok fs (glob_pt fs) Hall)
      in Hres.
    simpl snd in Hres. cbv beta iota in Hres.
    rewrite (sorted_reverse_decorated (stat_time fs) (glob_pt fs)) in Hres.
    pose proof (sorted_reverse_head_first_max (stat_time fs) (glob_pt fs)) as Hfm.
    rewrite Hgl in Hfm at 2.
    rewrite (first_max_at (stat_time fs) (map entry before) (map entry after)
               (entry name)) in Hfm.
    + destruct (sorted_reverse (stat_time fs) (glob_pt fs)) as [|c cs];
        [discriminate Hfm|].
      simpl in Hfm. inversion Hfm; subst c.
      rewrite Hres, Hg, map_map. reflexivity.
    + intros q Hq. apply in_map_iff in Hq. destruct Hq as (o & <- & Ho).
      destruct (Hbefore o Ho) as (t' & Ht' & Hlt).
      unfold stat_time at 1. rewrite Ht', Htime. exact Hlt.
    + intros q Hq. apply in_map_iff in Hq. destruct Hq as (o & <- & Ho).
      destruct (Hafter o Ho) as (t' & Ht' & Hle).
      unfold stat_time at 1. rewrite Ht', Htime. exact Hle.
  - intros before name after e Hsplit Hbefore Hname.
    assert (Hgl : glob_pt fs = map entry before ++ entry name :: map entry after)
      by (rewrite Hg, Hsplit, map_app; reflexivity).
    assert (Hb : forall q, In q (map entry before) -> exists t, fs_stat fs q = Ok t).
    { intros q Hq. apply in_map_iff in Hq. destruct Hq as (o & <- & Ho).
      apply Hbefore, Ho. }
    rewrite Hres, Hgl.
    rewrite (@stat_prefix_raise fs (map entry before) (entry name) (map entry after)
               e Hb Hname).
    rewrite (@stat_all_raise fs (map entry before) (entry name) (map entry after)
               e Hb Hname).
    simpl snd. rewrite !map_app, map_map. reflexivity.
Qed.

(** The events of a resolution, for every spec. *)
Lemma resolve_trace (fs : filesystem) (s : string) :
  fst (resolve_weights_path fs s) =
    if String.eqb (PyStr.upper s) "AUTO" then
      EvGlob (fs_script_dir fs) :: map EvStat (stat_prefix fs (glob_pt fs))
    else if is_absolute (mkPath s) then
      [EvIsFile (mkPath s)]
    else
      match fs_is_file fs (mkPath s) with
      | Ok false =>
          [EvIsFile (mkPath s); EvIsFile (joinpath (fs_script_dir fs) (mkPath s))]
      | _ => [EvIsFile (mkPath s)]
      end.
Proof.
  destruct (String.eqb (PyStr.upper s) "AUTO") eqn:Hs.
  - apply String.eqb_eq in Hs. rewrite (resolve_sentinel fs s Hs). reflexivity.
  - rewrite (resolve_plain fs s Hs). cbv zeta. unfold build_candidates.
    destruct (is_absolute (mkPath s)).
    + rewrite first_file_one. destruct (fs_is_file fs (mkPath s)) as [[|]|e]; reflexivity.
    + rewrite first_file_two.
      destruct (fs_is_file fs (mkPath s)) as [[|]|e]; try reflexivity.
      destruct (fs_is_file fs (joinpath (fs_script_dir fs) (mkPath s))) as [[|]|e];
        reflexivity.
Qed.

(** C3, as the code has it: the sentinel test comes first.  With the
    sentinel the newest-file search is the only step and no path is looked
    up: the matching entries are stat'ed, up to the first whose [stat]
    raises.  Without it an absolute spec is looked up alone; a relative
    spec is looked up from the working directory and then, when that
    look-up answers [False], under the script's directory, a look-up that
    answers [True] or raises being the last; and there is no newest-file
    search. *)
Theorem resolve_sentinel_first (fs : filesystem) (s : string) :
  fst (resolve_weights_path fs s) =
    if String.eqb (PyStr.upper s) "AUTO" then
      EvGlob (fs_script_dir fs) :: map EvStat (stat_prefix fs (glob_pt fs))
    else if is_absolute (mkPath s) then
      [EvIsFile (mkPath s)]
    else
      match fs_is_file fs (mkPath s) with
      | Ok false =>
          [EvIsFile (mkPath s); EvIsFile (joinpath (fs_script_dir fs) (mkPath s))]
      | Ok true => [EvIsFile (mkPath s)]
      | Raise _ => [EvIsFile (mkPath s)]
      end.
Proof.
  rewrite resolve_trace.
  destruct (String.eqb (PyStr.upper s) "AUTO"); [reflexivity|].
  destruct (is_absolute (mkPath s)); [reflexivity|].
  destruct (fs_is_file fs (mkPath s)) as [[|]|e]; reflexivity.
Qed.

(** C4: an absolute spec that is an existing file (and not the sentinel)
    is returned as the path the spec denotes; it is the only candidate, so
    a single look-up is made and nothing is tried under the script's
    directory. *)
Theorem resolve_absolute_existing (fs : filesystem) (s : string) :
  String.eqb (PyStr.upper s) "AUTO" = false ->
  is_absolute (mkPath s) = true ->
  fs_is_file fs (mkPath s) = Ok true ->
  resolve_weights_path fs s = ([EvIsFile (mkPath s)], Ok (mkPath s))
  /\ build_candidates fs (mkPath s) = [mkPath s].
Proof.
  intros Hs Habs Hfile.
  assert (Hc : build_candidates fs (mkPath s) = [mkPath s])
    by (unfold build_candidates; now rewrite Habs).
  split; [|exact Hc].
  rewrite (resolve_plain fs s Hs). cbv zeta. rewrite Hc, first_file_one, Hfile.
  reflexivity.
Qed.

(** C10: every spelling whose upper-casing is ['AUTO'] takes the
    newest-file search, exactly as ['AUTO'] itself does: the matching
    entries are stat'ed, up to the first whose [stat] raises, and no path
    is looked up with [is_file]. *)
Theorem sentinel_case_insensitive (fs : filesystem) (s : string) :
  PyStr.upper s = "AUTO" ->
  resolve_weights_path fs s = resolve_weights_path fs "AUTO"
  /\ fst (resolve_weights_path fs s) =
       EvGlob (fs_script_dir fs) :: map EvStat (stat_prefix fs (glob_pt fs))
  /\ forall p, ~ In (EvIsFile p) (fst (resolve_weights_path fs s)).
Proof.
  intro Hs.
  rewrite (resolve_sentinel fs s Hs), (resolve_sentinel fs "AUTO" eq_refl).
  split; [reflexivity|]. split; [reflexivity|].
  simpl. intros p [H|H]; [discriminate|].
  apply in_map_iff in H. destruct H as (q & H & _). discriminate.
Qed.

End Resolution.
(** ** The source selector *)

Section Source.

Variable beyond : string -> option Z.

Lemma py_int_raises_ValueError (s : string) (e : exn) :
  py_int beyond s = Raise e -> e = ValueError.
Proof.
  unfold py_int. destruct (if PyStr.is_ascii s then int_ascii s else beyond s);
    intro H; inversion H; reflexivity.
Qed.

Lemma coerce_source_returns (s : string) :
  coerce_source beyond s =
    Ok match (if PyStr.is_ascii s then int_ascii s else beyond s) with
       | Some n => inl n
       | None => inr s
       end.
Proof.
  unfold coerce_source, py_int.
  destruct (if PyStr.is_ascii s then int_ascii s else beyond s); reflexivity.
Qed.

End Source.

(** *** Strings *)

Lemma str_app_assoc (a b c : string) : ((a ++ b) ++ c = a ++ b ++ c)%string.
Proof.
  induction a as [|x a IH]; simpl; [reflexivity|]. now rewrite IH.
Qed.

Lemma str_app_nil_r (a : string) : (a ++ "" = a)%string.
Proof.
  induction a as [|x a IH]; simpl; [reflexivity|]. now rewrite IH.
Qed.

Lemma str_forall_app (f : ascii -> bool) (a b : string) :
  str_forall f (a ++ b) = str_forall f a && str_forall f b.
Proof.
  induction a as [|x a IH]; simpl; [reflexivity|]. now rewrite IH, andb_assoc.
Qed.

Lemma str_forall_impl (f g : ascii -> bool) (s : string) :
  (forall c, f c = true -> g c = true) ->
  str_forall f s = true -> str_forall g s = true.
Proof.
  intro H. induction s as [|c s IH]; simpl; [reflexivity|].
  intro Hs. apply andb_prop in Hs. destruct Hs as [Hc Hs].
  now rewrite (H c Hc), (IH Hs).
Qed.

(** *** Stripping *)

Lemma int_lstrip_spaces (s : string) :
  str_forall int_space s = true -> int_lstrip s = EmptyString.
Proof.
  induction s as [|c s IH]; simpl; [reflexivity|].
  intro H. apply andb_prop in H. destruct H as [-> Hs]. apply IH, Hs.
Qed.

Lemma int_rstrip_spaces (s : string) :
  str_forall int_space s = true -> int_rstrip s = EmptyString.
Proof.
  induction s as [|c s IH]; simpl; [reflexivity|].
  intro H. apply andb_prop in H. destruct H as [Hc Hs].
  rewrite (IH Hs), Hc. reflexivity.
Qed.

Lemma int_lstrip_app_spaces (l s : string) :
  str_forall int_space l = true -> int_lstrip (l ++ s) = int_lstrip s.
Proof.
  induction l as [|c l IH]; simpl; [reflexivity|].
  intro H. apply andb_prop in H. destruct H as [-> Hl]. apply IH, Hl.
Qed.

Lemma int_rstrip_app_spaces (s r : string) :
  str_forall int_space r = true -> int_rstrip (s ++ r) = int_rstrip s.
Proof.
  intro Hr. induction s as [|c s IH]; simpl.
  - apply int_rstrip_spaces, Hr.
  - rewrite IH. reflexivity.
Qed.

Lemma int_strip_app_spaces (l s r : string) :
  str_forall int_space l = true ->
  str_forall int_space r = true ->
  int_strip (l ++ s ++ r) = int_strip s.
Proof.
  intros Hl Hr. unfold int_strip. rewrite (int_lstrip_app_spaces l (s ++ r) Hl).
  induction s as [|c s IH]; simpl.
  - rewrite (int_lstrip_spaces r Hr). reflexivity.
  - destruct (int_space c); [exact IH|].
    apply (int_rstrip_app_spaces (String c s) r Hr).
Qed.

Lemma int_lstrip_decompose (s : string) :
  exists l, s = (l ++ int_lstrip s)%string /\ str_forall int_space l = true.
Proof.
  induction s as [|c s (l & Hs & Hl)]; simpl.
  - exists EmptyString. auto.
  - destruct (int_space c) eqn:E.
    + exists (String c l). simpl. rewrite E, Hl, <- Hs. auto.
    + exists EmptyString. auto.
Qed.

Lemma int_rstrip_decompose (s : string) :
  exists r, s = (int_rstrip s ++ r)%string /\ str_forall int_space r = true.
Proof.
  induction s as [|c s (r & Hs & Hr)]; simpl.
  - exists EmptyString. auto.
  - destruct (int_rstrip s) as [|d t] eqn:E.
    + simpl in Hs. subst s. destruct (int_space c) eqn:Ec.
      * exists (String c r). simpl. rewrite Ec, Hr. auto.
      * exists r. auto.
    + exists r. split; [|exact Hr]. simpl. f_equal. exact Hs.
Qed.

Lemma int_strip_decompose (s : string) :
  exists l r,
    s = (l ++ int_strip s ++ r)%string
    /\ str_forall int_space l = true /\ str_forall int_space r = true.
Proof.
  destruct (int_lstrip_decompose s) as (l & Hs & Hl).
  destruct (int_rstrip_decompose (int_lstrip s)) as (r & Ht & Hr).
  exists l, r. unfold int_strip. rewrite <- Ht. auto.
Qed.

Lemma int_rstrip_no_space (s : string) :
  str_forall (fun c => negb (int_space c)) s = true -> int_rstrip s = s.
Proof.
  induction s as [|c s IH]; simpl; [reflexivity|].
  intro H. apply andb_prop in H. destruct H as [Hc Hs].
  rewrite (IH Hs). apply negb_true_iff in Hc. rewrite Hc. destruct s; reflexivity.
Qed.

Lemma int_strip_no_space (s : string) :
  str_forall (fun c => negb (int_space c)) s = true -> int_strip s = s.
Proof.
  intro H. unfold int_strip.
  assert (E : int_lstrip s = s).
  { destruct s as [|c s]; simpl in *; [reflexivity|].
    apply andb_prop in H. destruct H as [Hc _].
    apply negb_true_iff in Hc. now rewrite Hc. }
  rewrite E. apply int_rstrip_no_space, H.
Qed.

(** *** The parser and the literals *)

Lemma signed_digits_cases (t : string) :
  signed_digits t =
    match t with
    | EmptyString => (false, EmptyString)
    | String c ds =>
        if Ascii.eqb c "-" then (true, ds)
        else if Ascii.eqb c "+" then (false, ds)
        else (false, t)
    end.
Proof.
  destruct t as [|c ds]; [reflexivity|].
  destruct c as [[] [] [] [] [] [] [] []]; reflexivity.
Qed.

Lemma digit_not_sign (c : ascii) :
  PyStr.is_digit c = true -> Ascii.eqb c "-" = false /\ Ascii.eqb c "+" = false.
Proof.
  intro H. split.
  - destruct (Ascii.eqb_spec c "-") as [->|]; [discriminate H|reflexivity].
  - destruct (Ascii.eqb_spec c "+") as [->|]; [discriminate H|reflexivity].
Qed.

Lemma digit_not_space (c : ascii) :
  PyStr.is_digit c = true -> int_space c = false.
Proof.
  unfold PyStr.is_digit, int_space. cbv zeta.
  destruct (Nat.leb_spec 48 (nat_of_ascii c)); simpl; [|discriminate].
  intros _.
  destruct (Nat.leb_spec (nat_of_ascii c) 13); [lia|].
  destruct (Nat.eqb_spec (nat_of_ascii c) 32); [lia|].
  now rewrite andb_false_r.
Qed.

Lemma grouped_head (s : string) :
  grouped s -> exists c t, s = String c t /\ PyStr.is_digit c = true.
Proof.
  destruct 1; eauto.
Qed.

Lemma grouped_no_space (s : string) :
  grouped s -> str_forall (fun c => negb (int_space c)) s = true.
Proof.
  induction 1 as [c Hc|c s Hc _ IH|c s Hc _ IH]; simpl;
    rewrite (digit_not_space c Hc); simpl; auto.
Qed.

Lemma digits_value_complete (s : string) :
  grouped s -> forall acc b, digits_value acc b s = Some (number_of acc s).
Proof.
  induction 1 as [c Hc|c s Hc _ IH|c s Hc Hs IH]; intros acc b;
    cbn [digits_value number_of]; rewrite Hc.
  - reflexivity.
  - apply IH.
  - change (PyStr.is_digit "_") with false. cbv iota.
    change (Ascii.eqb "_" "_") with true. cbn [andb].
    destruct (grouped_head Hs) as (d & t & -> & Hd). rewrite Hd. apply IH.
Qed.

Lemma digits_value_sound (s : string) (acc : Z) (b : bool) (v : Z) :
  digits_value acc b s = Some v ->
  (s = EmptyString /\ b = true /\ v = acc)
  \/ (grouped s /\ v = number_of acc s)
  \/ (b = true /\ exists t, s = String "_" t /\ grouped t /\ v = number_of acc t).
Proof.
  revert acc b v. induction s as [|c s IH]; intros acc b v H.
  - destruct b; inversion H. auto.
  - cbn [digits_value] in H. destruct (PyStr.is_digit c) eqn:Hc.
    + right. left. cbn [number_of]. rewrite Hc.
      destruct (IH _ _ _ H) as [(-> & _ & ->)|[[Hg ->]|(_ & t & -> & Hg & ->)]].
      * split; [now constructor|reflexivity].
      * split; [now constructor|reflexivity].
      * split; [now constructor|]. cbn [number_of].
        change (PyStr.is_digit "_") with false. reflexivity.
    + destruct (Ascii.eqb_spec c "_") as [->|]; [|discriminate H].
      destruct b; [|discriminate H]. cbn [andb] in H.
      destruct s as [|d t]; [discriminate H|].
      destruct (PyStr.is_digit d) eqn:Hd; [|discriminate H].
      right. right. split; [reflexivity|]. exists (String d t).
      destruct (IH _ _ _ H) as [(E & _)|[[Hg ->]|(E & _)]]; try discriminate E.
      auto.
Qed.

Lemma int_ascii_cases (s : string) :
  int_ascii s =
    (if int_max_str_digits <? digit_count (snd (signed_digits (int_strip s)))
     then None
     else option_map (fun n => if fst (signed_digits (int_strip s)) then - n else n)
            (digits_value 0 false (snd (signed_digits (int_strip s))))).
Proof.
  unfold int_ascii. destruct (signed_digits (int_strip s)). reflexivity.
Qed.

(** The parser accepts the literals, and reads their number. *)
Lemma int_ascii_complete (s : string) (n : Z) : int_syntax s n -> int_ascii s = Some n.
Proof.
  intros [l sign body r -> Hl Hr Hsign Hg Hcount ->].
  rewrite <- (str_app_assoc sign body r).
  rewrite int_ascii_cases, (int_strip_app_spaces l (sign ++ body) r Hl Hr).
  destruct (grouped_head Hg) as (c & t & Hbody & Hc). subst body.
  destruct (digit_not_sign c Hc) as [Hm Hp].
  assert (Hns : str_forall (fun c => negb (int_space c)) (sign ++ String c t) = true).
  { rewrite str_forall_app, (grouped_no_space Hg), andb_true_r.
    destruct Hsign as [-> | [-> | ->]]; reflexivity. }
  rewrite (int_strip_no_space _ Hns), signed_digits_cases.
  assert (Hlim : (int_max_str_digits <? digit_count (String c t)) = false)
    by (apply Z.ltb_ge; exact Hcount).
  destruct Hsign as [-> | [-> | ->]]; simpl append.
  - cbv iota. rewrite Hm, Hp. simpl fst. simpl snd.
    rewrite Hlim, (digits_value_complete Hg). reflexivity.
  - cbv iota.
    change (Ascii.eqb "+" "-") with false. change (Ascii.eqb "+" "+") with true.
    simpl fst. simpl snd. rewrite Hlim, (digits_value_complete Hg). reflexivity.
  - cbv iota. change (Ascii.eqb "-" "-") with true.
    simpl fst. simpl snd. rewrite Hlim, (digits_value_complete Hg). reflexivity.
Qed.

(** What the parser accepts is a literal, and what it reads is its
    number. *)
Lemma int_ascii_sound (s : string) (n : Z) : int_ascii s = Some n -> int_syntax s n.
Proof.
  rewrite int_ascii_cases, signed_digits_cases.
  destruct (int_strip_decompose s) as (l & r & Hs & Hl & Hr).
  destruct (int_strip s) as [|c ds] eqn:Et.
  - simpl. destruct (int_max_str_digits <? 0); discriminate.
  - assert (Hread : forall (sign body : string) (negative : bool),
              String c ds = (sign ++ body)%string ->
              (sign = EmptyString \/ sign = "+" \/ sign = "-") ->
              negative = String.eqb sign "-" ->
              (if int_max_str_digits <? digit_count body then None
               else option_map (fun n => if negative then - n else n)
                      (digits_value 0 false body)) = Some n ->
              int_syntax s n).
    { intros sign body negative Ht Hsign Hneg H.
      destruct (int_max_str_digits <? digit_count body) eqn:Hlim; [discriminate H|].
      apply Z.ltb_ge in Hlim.
      destruct (digits_value 0 false body) as [v|] eqn:Hv; [|discriminate H].
      simpl in H. inversion H; subst n.
      destruct (digits_value_sound _ _ _ Hv) as [(_ & E & _)|[[Hg ->]|(E & _)]];
        try discriminate E.
      apply (@int_syntax_intro s _ l sign body r);
        try assumption.
      - rewrite Hs, Ht, str_app_assoc. reflexivity.
      - rewrite <- Hneg. reflexivity. }
    destruct (Ascii.eqb_spec c "-") as [->|Hm].
    + apply (Hread "-" ds true); auto.
    + destruct (Ascii.eqb_spec c "+") as [->|Hp].
      * apply (Hread "+" ds false); auto.
      * apply (Hread EmptyString (String c ds) false); auto.
Qed.

(** *** [int(str(n)) == n] *)

Lemma grouped_uint (d : Decimal.uint) :
  d <> Decimal.Nil ->
  grouped (NilEmpty.string_of_uint d)
  /\ forall acc, number_of acc (NilEmpty.string_of_uint d) = uint_value acc d.
Proof.
  induction d; intro Hd; try contradiction;
    (destruct d;
     [ split; [now constructor | reflexivity]
     | destruct IHd as [Hg Hn]; [discriminate|];
       split; [apply grouped_more; [reflexivity|exact Hg]
              | intro acc; cbn [NilEmpty.string_of_uint number_of uint_value];
                match goal with
                | |- context [PyStr.is_digit ?c] =>
                    change (PyStr.is_digit c) with true;
                    let v := eval vm_compute in (PyStr.digit_value c) in
                    change (PyStr.digit_value c) with v
                end; cbv iota; apply Hn] .. ]).
Qed.

Lemma uint_value_of_uint_acc (d : Decimal.uint) (acc : positive) :
  Z.pos (Pos.of_uint_acc d acc) = uint_value (Z.pos acc) d.
Proof.
  revert acc. induction d; intro acc; cbn [Pos.of_uint_acc uint_value];
    try reflexivity; rewrite IHd; f_equal; lia.
Qed.

Lemma uint_value_of_uint (d : Decimal.uint) : Z.of_uint d = uint_value 0 d.
Proof.
  unfold Z.of_uint.
  induction d; cbn [Pos.of_uint uint_value Z.of_N]; try reflexivity;
    try exact IHd; rewrite uint_value_of_uint_acc; reflexivity.
Qed.

Lemma uint_value_to_uint (p : positive) : uint_value 0 (Pos.to_uint p) = Z.pos p.
Proof.
  rewrite <- uint_value_of_uint. unfold Z.of_uint.
  rewrite DecimalPos.Unsigned.of_to. reflexivity.
Qed.

Lemma digit_count_length (s : string) : digit_count s <= Z.of_nat (String.length s).
Proof.
  induction s as [|c s IH]; [reflexivity|].
  cbn [digit_count String.length]. destruct (PyStr.is_digit c); lia.
Qed.

Lemma int_syntax_of_int (n : Z) :
  Z.of_nat (String.length (PyStr.of_int n)) <= int_max_str_digits ->
  int_syntax (PyStr.of_int n) n.
Proof.
  unfold PyStr.of_int, Z.to_int.
  destruct n as [|p|p]; intro Hlen.
  - apply (@int_syntax_intro _ _ "" "" "0" ""); try reflexivity.
    + left. reflexivity.
    + now constructor.
    + unfold int_max_str_digits. simpl. lia.
  - pose proof (DecimalPos.Unsigned.to_uint_nonnil p) as Hnn.
    destruct (grouped_uint Hnn) as [Hg Hv].
    assert (E : NilZero.string_of_int (Decimal.Pos (Pos.to_uint p))
                = NilEmpty.string_of_uint (Pos.to_uint p)).
    { unfold NilZero.string_of_int, NilZero.string_of_uint.
      destruct (Pos.to_uint p); [contradiction|reflexivity..]. }
    rewrite E in *.
    apply (@int_syntax_intro _ _ "" "" (NilEmpty.string_of_uint (Pos.to_uint p)) "").
    + simpl. now rewrite str_app_nil_r.
    + reflexivity.
    + reflexivity.
    + left. reflexivity.
    + exact Hg.
    + pose proof (digit_count_length (NilEmpty.string_of_uint (Pos.to_uint p))). lia.
    + simpl. now rewrite Hv, uint_value_to_uint.
  - pose proof (DecimalPos.Unsigned.to_uint_nonnil p) as Hnn.
    destruct (grouped_uint Hnn) as [Hg Hv].
    assert (E : NilZero.string_of_int (Decimal.Neg (Pos.to_uint p))
                = String "-" (NilEmpty.string_of_uint (Pos.to_uint p))).
    { unfold NilZero.string_of_int, NilZero.string_of_uint.
      destruct (Pos.to_uint p); [contradiction|reflexivity..]. }
    rewrite E in *.
    apply (@int_syntax_intro _ _ "" "-" (NilEmpty.string_of_uint (Pos.to_uint p)) "").
    + simpl. now rewrite str_app_nil_r.
    + reflexivity.
    + reflexivity.
    + right. right. reflexivity.
    + exact Hg.
    + pose proof (digit_count_length (NilEmpty.string_of_uint (Pos.to_uint p))).
      cbn [String.length] in Hlen. lia.
    + simpl. now rewrite Hv, uint_value_to_uint.
Qed.

Lemma is_ascii_app (a b : string) :
  PyStr.is_ascii (a ++ b) = PyStr.is_ascii a && PyStr.is_ascii b.
Proof.
  induction a as [|c a IH]; simpl; [reflexivity|]. now rewrite IH, andb_assoc.
Qed.

Lemma is_ascii_forall (f : ascii -> bool) (s : string) :
  (forall c, f c = true -> PyStr.is_ascii_char c = true) ->
  str_forall f s = true -> PyStr.is_ascii s = true.
Proof.
  intro Hf. induction s as [|c s IH]; simpl; [reflexivity|].
  intro H. apply andb_prop in H. destruct H as [Hc Hs].
  now rewrite (Hf c Hc), (IH Hs).
Qed.

Lemma int_space_ascii (c : ascii) : int_space c = true -> PyStr.is_ascii_char c = true.
Proof.
  unfold int_space, PyStr.is_ascii_char. cbv zeta. intro H.
  apply Nat.ltb_lt. apply orb_prop in H. destruct H as [H|H].
  - apply andb_prop in H. destruct H as [_ H]. apply Nat.leb_le in H. lia.
  - apply Nat.eqb_eq in H. lia.
Qed.

Lemma digit_ascii (c : ascii) : PyStr.is_digit c = true -> PyStr.is_ascii_char c = true.
Proof.
  unfold PyStr.is_digit, PyStr.is_ascii_char. cbv zeta. intro H.
  apply andb_prop in H. destruct H as [_ H]. apply Nat.leb_le in H.
  apply Nat.ltb_lt. lia.
Qed.

Lemma grouped_ascii (s : string) : grouped s -> PyStr.is_ascii s = true.
Proof.
  induction 1 as [c Hc|c s Hc _ IH|c s Hc _ IH]; simpl;
    rewrite (digit_ascii c Hc), ?IH; reflexivity.
Qed.

Lemma int_syntax_ascii (s : string) (n : Z) : int_syntax s n -> PyStr.is_ascii s = true.
Proof.
  intros [l sign body r -> Hl Hr Hsign Hg _ _].
  rewrite !is_ascii_app, (is_ascii_forall _ l int_space_ascii Hl),
    (is_ascii_forall _ r int_space_ascii Hr), (grouped_ascii Hg).
  destruct Hsign as [-> | [-> | ->]]; reflexivity.
Qed.

Section SourceClaim.

Variable beyond : string -> option Z.

Lemma coerce_source_syntax (s : string) (n : Z) :
  PyStr.is_ascii s = true ->
  coerce_source beyond s = Ok (inl n) <-> int_syntax s n.
Proof.
  intro Ha. rewrite coerce_source_returns, Ha. split.
  - destruct (int_ascii s) as [v|] eqn:E; intro H; inversion H; subst.
    apply int_ascii_sound, E.
  - intro H. now rewrite (int_ascii_complete H).
Qed.

Lemma coerce_source_of_int (n : Z) :
  Z.of_nat (String.length (PyStr.of_int n)) <= int_max_str_digits ->
  coerce_source beyond (PyStr.of_int n) = Ok (inl n).
Proof.
  intro H. pose proof (int_syntax_of_int n H) as Hs.
  apply coerce_source_syntax; [exact (int_syntax_ascii Hs)|exact Hs].
Qed.

(** C8: [coerce_source] gives the integer when [int(src)] succeeds and
    the string itself when [int(src)] raises; it raises nothing.  On an
    ASCII string [int(src)] succeeds exactly on the decimal literals:
    white space (TAB, LF, VT, FF, CR, blank) on either side, one optional
    sign, and at most 4300 digits in groups separated by single
    underscores; the integer is the number the digits write.  So the
    decimal writing of an integer of at most 4300 characters is read back
    as that integer, and so are a plain index, a negative one and one
    with blanks around it; a file separator (byte 28), white space for
    [str.isspace] but not for [int()], is not stripped. *)
Theorem coerce_source_int_or_same :
  (forall s,
     match py_int beyond s with
     | Ok n => coerce_source beyond s = Ok (inl n)
     | Raise _ => coerce_source beyond s = Ok (inr s)
     end)
  /\ (forall s e, coerce_source beyond s <> Raise e)
  /\ (forall s n, PyStr.is_ascii s = true ->
        (coerce_source beyond s = Ok (inl n) <-> int_syntax s n))
  /\ (forall s, PyStr.is_ascii s = true -> (forall n, ~ int_syntax s n) ->
        coerce_source beyond s = Ok (inr s))
  /\ (forall n, Z.of_nat (String.length (PyStr.of_int n)) <= int_max_str_digits ->
        coerce_source beyond (PyStr.of_int n) = Ok (inl n))
  /\ coerce_source beyond "0" = Ok (inl 0)
  /\ coerce_source beyond "-1" = Ok (inl (-1))
  /\ coerce_source beyond " 2 " = Ok (inl 2)
  /\ coerce_source beyond "rtsp://cam/1" = Ok (inr "rtsp://cam/1")
  /\ coerce_source beyond (String "028" "5") = Ok (inr (String "028" "5")).
Proof.
  split; [|split; [|split; [|split; [|split; [|repeat split; reflexivity]]]]].
  - intro s. destruct (py_int beyond s) as [n|e] eqn:E.
    + unfold coerce_source. rewrite E. reflexivity.
    + pose proof (py_int_raises_ValueError _ _ E) as ->.
      unfold coerce_source. rewrite E. reflexivity.
  - intros s e. rewrite coerce_source_returns. discriminate.
  - intros s n. apply coerce_source_syntax.
  - intros s Ha Hno. rewrite coerce_source_returns, Ha.
    destruct (int_ascii s) as [v|] eqn:E; [|reflexivity].
    exfalso. apply (Hno v). apply int_ascii_sound, E.
  - apply coerce_source_of_int.
Qed.

End SourceClaim.

(** ** The spellings of the sentinel *)

Lemma upper_char_A (c : ascii) :
  PyStr.upper_char c = "A"%char -> c = "A"%char \/ c = "a"%char.
Proof.
  destruct c as [[] [] [] [] [] [] [] []]; vm_compute; intro H;
    try discriminate H; auto.
Qed.

Lemma upper_char_U (c : ascii) :
  PyStr.upper_char c = "U"%char -> c = "U"%char \/ c = "u"%char.
Proof.
  destruct c as [[] [] [] [] [] [] [] []]; vm_compute; intro H;
    try discriminate H; auto.
Qed.

Lemma upper_char_T (c : ascii) :
  PyStr.upper_char c = "T"%char -> c = "T"%char \/ c = "t"%char.
Proof.
  destruct c as [[] [] [] [] [] [] [] []]; vm_compute; intro H;
    try discriminate H; auto.
Qed.

Lemma upper_char_O (c : ascii) :
  PyStr.upper_char c = "O"%char -> c = "O"%char \/ c = "o"%char.
Proof.
  destruct c as [[] [] [] [] [] [] [] []]; vm_compute; intro H;
    try discriminate H; auto.
Qed.

(** The strings whose upper-casing is ['AUTO'] are the sixteen ways of
    writing the four letters in either case. *)
Lemma upper_AUTO_spellings (s : string) :
  PyStr.upper s = "AUTO" <->
  exists a u t o,
    s = String a (String u (String t (String o EmptyString)))
    /\ (a = "A" \/ a = "a")%char /\ (u = "U" \/ u = "u")%char
    /\ (t = "T" \/ t = "t")%char /\ (o = "O" \/ o = "o")%char.
Proof.
  split.
  - destruct s as [|a [|u [|t [|o [|x s]]]]]; simpl; intro H; try discriminate H.
    injection H as Ha Hu Ht Ho.
    exists a, u, t, o. split; [reflexivity|].
    repeat split;
      [apply upper_char_A | apply upper_char_U | apply upper_char_T | apply upper_char_O];
      assumption.
  - intros (a & u & t & o & -> & [-> | ->] & [-> | ->] & [-> | ->] & [-> | ->]);
      reflexivity.
Qed.

(** ** The run *)

Section Run.

Context {flavour : PathFlavour}.

(** Splits a hypothesis [In e t] along the visible structure of [t]. *)
Ltac in_cases H :=
  simpl in H;
  repeat match type of H with
         | In _ (_ ++ _) => apply in_app_or in H; destruct H as [H|H]
         | In _ (_ :: _) => simpl in H
         | In _ [] => destruct H
         | _ \/ _ => destruct H as [H|H]
         | False => destruct H
         end.

Lemma steps_app (t u : list event) : steps (t ++ u) = steps t ++ steps u.
Proof.
  induction t as [|e t IH]; simpl; [reflexivity|].
  destruct (step_of e); simpl; now rewrite IH.
Qed.

Lemma steps_uniform (c : step) (t : list event) :
  (forall e, In e t -> step_of e = Some c) -> Forall (eq c) (steps t).
Proof.
  induction t as [|e t IH]; intro H; simpl; [constructor|].
  rewrite (H e (or_introl eq_refl)). constructor; [reflexivity|].
  apply IH. intros x Hx. apply H. now right.
Qed.

Lemma bind_trace {A B} (m : M A) (k : A -> M B) :
  fst (bind m k) =
    match snd m with
    | Ok a => fst m ++ fst (k a)
    | Raise _ => fst m
    end.
Proof.
  destruct m as [t [a|e]]; simpl; [|reflexivity].
  destruct (k a); reflexivity.
Qed.

(** *** Which events each part of the script performs *)

Lemma resolve_events (fs : filesystem) (s : string) (e : event) :
  In e (fst (resolve_weights_path fs s)) -> step_of e = Some StepResolve.
Proof.
  rewrite resolve_trace.
  destruct (String.eqb (PyStr.upper s) "AUTO").
  - intros [<-|H]; [reflexivity|].
    apply in_map_iff in H. destruct H as (q & <- & _). reflexivity.
  - destruct (is_absolute (mkPath s)); [intros [<-|[]]; reflexivity|].
    destruct (fs_is_file fs (mkPath s)) as [[|]|x].
    + intros [<-|[]]; reflexivity.
    + intros [<-|[<-|[]]]; reflexivity.
    + intros [<-|[]]; reflexivity.
Qed.

Lemma summarize_box_events (names : option (list (Z * string))) (i : Z) (b : box)
    (e : event) :
  In e (fst (summarize_box names i b)) -> step_of e = Some StepSummary.
Proof.
  unfold summarize_box, lift, ret, bind, print, emit.
  destruct (box_cls b) as [[c|x]|]; destruct (box_conf b) as [[q|x']|];
    simpl; intro H; in_cases H; subst; reflexivity.
Qed.

Lemma summarize_boxes_events (names : option (list (Z * string))) (bs : list box)
    (i : Z) (e : event) :
  In e (fst (summarize_boxes names i bs)) -> step_of e = Some StepSummary.
Proof.
  revert i. induction bs as [|b bs IH]; intro i; simpl; [intros []|].
  rewrite bind_trace. intro H.
  destruct (snd (summarize_box names i b)).
  - apply in_app_or in H. destruct H as [H|H].
    + eapply summarize_box_events, H.
    + eapply IH, H.
  - eapply summarize_box_events, H.
Qed.

Lemma summary_body_events (names : option (list (Z * string))) (first : result)
    (e : event) :
  In e (fst (summary_body names first)) -> step_of e = Some StepSummary.
Proof.
  unfold summary_body, lift. destruct (result_boxes first) as [[b|]|x]; simpl.
  - destruct (boxes_len b) as [n|x]; simpl; [|intros []].
    destruct (0 <? n).
    + destruct (summarize_boxes names 0 (boxes_items b)) as [t r] eqn:E.
      simpl. change t with (fst (t, r)). rewrite <- E. apply summarize_boxes_events.
    + intros [<-|[]]. reflexivity.
  - intros [<-|[]]. reflexivity.
  - intros [].
Qed.

(** The [except Exception] clause of the summary, case by case. *)
Lemma summary_cases (names : option (list (Z * string))) (first : result) :
  summary names first =
    match summary_body names first with
    | (t, Ok u) => (t, Ok u)
    | (t, Raise e) =>
        if is_Exception e then (t ++ [EvPrint MsgUnavailable], Ok tt)
        else (t, Raise e)
    end.
Proof.
  unfold summary, try_except.
  destruct (summary_body names first) as [t [u|e]]; [reflexivity|].
  destruct (is_Exception e); reflexivity.
Qed.

Lemma summary_events (names : option (list (Z * string))) (first : result)
    (e : event) :
  In e (fst (summary names first)) -> step_of e = Some StepSummary.
Proof.
  rewrite summary_cases.
  pose proof (summary_body_events names first e) as H.
  destruct (summary_body names first) as [t [u|x]]; simpl in *; [exact H|].
  destruct (is_Exception x); simpl; [|exact H].
  intro Hin. apply in_app_or in Hin. destruct Hin as [Hin|[<-|[]]]; auto.
Qed.

Lemma resolve_steps (fs : filesystem) (s : string) :
  Forall (eq StepResolve) (steps (fst (resolve_weights_path fs s))).
Proof.
  apply steps_uniform. intro e. apply resolve_events.
Qed.

Lemma summary_trace (names : option (list (Z * string))) (first : result) :
  Forall (eq StepSummary) (steps (fst (summary names first))).
Proof.
  apply steps_uniform. intro e. apply summary_events.
Qed.

(** *** The shape of a run of [main] *)

Lemma main_parse_raises (w : world) (e : exn) :
  w_args w = Raise e -> main w = ([EvParseArgs], Raise e).
Proof.
  intro H. unfold main, parse_args, call. rewrite H. reflexivity.
Qed.

Lemma resolve_or_exit_found (fs : filesystem) (s : string) (t : list event) (p : Path) :
  resolve_weights_path fs s = (t, Ok p) -> resolve_or_exit fs s = (t, Ok p).
Proof.
  intro H. unfold resolve_or_exit. rewrite H. reflexivity.
Qed.

Lemma resolve_or_exit_not_found (fs : filesystem) (s : string) (t : list event) (msg : string) :
  resolve_weights_path fs s = (t, Raise (FileNotFoundError msg)) ->
  resolve_or_exit fs s =
    (t ++ [EvPrint (MsgError msg); EvPrint MsgHint], Raise (SystemExit 1)).
Proof.
  intro H. unfold resolve_or_exit. rewrite H. reflexivity.
Qed.

Lemma main_not_found (w : world) (args : namespace) (t : list event) (msg : string) :
  w_args w = Ok args ->
  resolve_weights_path (w_fs w) (choose_weights (weights args))
    = (t, Raise (FileNotFoundError msg)) ->
  main w = (EvParseArgs :: t ++ [EvPrint (MsgError msg); EvPrint MsgHint],
            Raise (SystemExit 1)).
Proof.
  intros Ha Hr. unfold main, parse_args, call. rewrite Ha. unfold bind at 1.
  rewrite (resolve_or_exit_not_found _ _ Hr). reflexivity.
Qed.

(** Any other exception of the resolution passes through [main]. *)
Lemma main_unresolved (w : world) (args : namespace) (t : list event) (e : exn) :
  w_args w = Ok args ->
  resolve_weights_path (w_fs w) (choose_weights (weights args)) = (t, Raise e) ->
  main w =
    match e with
    | FileNotFoundError msg =>
        (EvParseArgs :: t ++ [EvPrint (MsgError msg); EvPrint MsgHint],
         Raise (SystemExit 1))
    | _ => (EvParseArgs :: t, Raise e)
    end.
Proof.
  intros Ha Hr. unfold main, parse_args, call. rewrite Ha. unfold bind at 1.
  unfold resolve_or_exit. rewrite Hr. destruct e; reflexivity.
Qed.

Lemma main_resolved (w : world) (args : namespace) (t : list event) (p : Path) :
  w_args w = Ok args ->
  resolve_weights_path (w_fs w) (choose_weights (weights args)) = (t, Ok p) ->
  main w = (EvParseArgs :: t ++ fst (run_model w args p), snd (run_model w args p)).
Proof.
  intros Ha Hr. unfold main, parse_args, call. rewrite Ha. unfold bind at 1.
  rewrite (resolve_or_exit_found _ _ Hr). unfold bind.
  destruct (run_model w args p). reflexivity.
Qed.

(** The summary part of a run, given what [predict] returned. *)
Lemma run_model_cases (w : world) (args : namespace) (p : Path) :
  run_model w args p =
    if check args then
      ([EvPrint (MsgUsingWeights p); EvPrint MsgCheckOk], Ok tt)
    else
      match w_YOLO w (path_str p) with
      | Raise e => ([EvPrint (MsgUsingWeights p); EvYOLO (path_str p)], Raise e)
      | Ok m =>
          let src := match (if PyStr.is_ascii (source args) then int_ascii (source args)
                                else w_int w (source args)) with
                     | Some n => inl n
                     | None => inr (source args)
                     end in
          let called := [EvPrint (MsgUsingWeights p); EvYOLO (path_str p);
                         EvPrint (MsgStarting src);
                         EvPredict m (predict_call args src)] in
          match w_predict w m (predict_call args src) with
          | Raise e => (called, Raise e)
          | Ok (Some (first :: _)) =>
              (called ++ EvPrint MsgDone :: fst (summary (model_names m) first),
               snd (summary (model_names m) first))
          | Ok _ => (called, Ok tt)
          end
      end.
Proof.
  unfold run_model. destruct (check args); [reflexivity|].
  unfold print, emit, call, lift. rewrite coerce_source_returns. cbv zeta.
  destruct (w_YOLO w (path_str p)) as [m|e]; [|reflexivity].
  unfold bind.
  destruct (w_predict w m _) as [[[|first rest]|]|e]; try reflexivity.
  destruct (summary (model_names m) first) as [t r]. reflexivity.
Qed.

Lemma sorted_by_rank_app (l1 l2 : list step) :
  StronglySorted (fun a b => (rank a <= rank b)%nat) l1 ->
  StronglySorted (fun a b => (rank a <= rank b)%nat) l2 ->
  (forall a b, In a l1 -> In b l2 -> (rank a <= rank b)%nat) ->
  StronglySorted (fun a b => (rank a <= rank b)%nat) (l1 ++ l2).
Proof.
  intros H1 H2 H12. induction H1 as [|a l Hl IH Ha]; simpl; [exact H2|].
  constructor.
  - apply IH. intros x y Hx Hy. apply H12; [now right|exact Hy].
  - apply Forall_app. split; [exact Ha|].
    rewrite Forall_forall. intros y Hy. apply H12; [now left|exact Hy].
Qed.

Lemma sorted_by_rank_constant (c : step) (l : list step) :
  Forall (eq c) l -> StronglySorted (fun a b => (rank a <= rank b)%nat) l.
Proof.
  induction 1 as [|x l Hx Hl IH]; constructor; [exact IH|].
  subst x. eapply Forall_impl; [|exact Hl]. intros y <-. lia.
Qed.

(** The steps of any run: parsing, then look-ups, then at most one
    construction, at most one prediction, then summary lines. *)
Lemma main_steps (w : world) :
  exists (R S : list step) (c p : bool),
    Forall (eq StepResolve) R /\ Forall (eq StepSummary) S
    /\ steps (fst (main w)) =
         [StepParse] ++ R ++ (if c then [StepConstruct] else [])
           ++ (if p then [StepPredict] else []) ++ S.
Proof.
  destruct (w_args w) as [args|e] eqn:Ha.
  2:{ rewrite (main_parse_raises w Ha). exists [], [], false, false.
      repeat split; constructor. }
  pose proof (resolve_steps (w_fs w) (choose_weights (weights args))) as HR.
  destruct (resolve_weights_path (w_fs w) (choose_weights (weights args)))
    as [t [path|e]] eqn:Hr; simpl in HR.
  2:{ rewrite (main_unresolved w Ha Hr).
      exists (steps t), [], false, false. repeat split; [exact HR|constructor|].
      destruct e; simpl; rewrite ?steps_app; simpl; now rewrite ?app_nil_r. }
  rewrite (main_resolved w Ha Hr), run_model_cases. simpl fst.
  destruct (check args).
  { exists (steps t), [], false, false. repeat split; [exact HR|constructor|].
    simpl. rewrite steps_app. simpl. now rewrite !app_nil_r. }
  destruct (w_YOLO w (path_str path)) as [m|e].
  2:{ exists (steps t), [], true, false. repeat split; [exact HR|constructor|].
      simpl. rewrite steps_app. reflexivity. }
  cbv zeta.
  destruct (w_predict w m _) as [[[|first rest]|]|e].
  - exists (steps t), [], true, true. repeat split; [exact HR|constructor|].
    simpl. rewrite steps_app. reflexivity.
  - exists (steps t), (StepSummary :: steps (fst (summary (model_names m) first))),
      true, true.
    repeat split; [exact HR|constructor; [reflexivity|apply summary_trace]|].
    simpl. rewrite !steps_app. reflexivity.
  - exists (steps t), [], true, true. repeat split; [exact HR|constructor|].
    simpl. rewrite steps_app. reflexivity.
  - exists (steps t), [], true, true. repeat split; [exact HR|constructor|].
    simpl. rewrite steps_app. reflexivity.
Qed.

Lemma main_in_order (w : world) : in_order (fst (main w)).
Proof.
  unfold in_order.
  destruct (main_steps w) as (R & S & c & p & HR & HS & ->).
  rewrite Forall_forall in HR, HS.
  repeat apply sorted_by_rank_app;
    try (apply sorted_by_rank_constant with (c := StepResolve); now apply Forall_forall);
    try (apply sorted_by_rank_constant with (c := StepSummary); now apply Forall_forall);
    try (destruct c; repeat constructor);
    try (destruct p; repeat constructor).
  all: intros a b Hin1 Hin2;
    repeat (apply in_app_or in Hin2; destruct Hin2 as [Hin2|Hin2]);
    try (destruct c); try (destruct p); simpl in *;
    repeat match goal with
           | H : _ \/ _ |- _ => destruct H
           | H : False |- _ => destruct H
           | H : In _ _ |- _ => first [apply HR in H | apply HS in H]
           end; subst; simpl; lia.
Qed.

(** *** Construction and prediction within a run *)

(** The events of a run whose weights were resolved, by cases. *)
Lemma main_trace_resolved (w : world) (args : namespace) (t : list event) (p : Path) :
  w_args w = Ok args ->
  resolve_weights_path (w_fs w) (choose_weights (weights args)) = (t, Ok p) ->
  fst (main w) =
    EvParseArgs :: t ++ EvPrint (MsgUsingWeights p) ::
      if check args then [EvPrint MsgCheckOk]
      else EvYOLO (path_str p) ::
        match w_YOLO w (path_str p) with
        | Raise _ => []
        | Ok m =>
            let src := match (if PyStr.is_ascii (source args) then int_ascii (source args)
                                else w_int w (source args)) with
                       | Some n => inl n
                       | None => inr (source args)
                       end in
            EvPrint (MsgStarting src) :: EvPredict m (predict_call args src) ::
              match w_predict w m (predict_call args src) with
              | Ok (Some (first :: _)) =>
                  EvPrint MsgDone :: fst (summary (model_names m) first)
              | _ => []
              end
        end.
Proof.
  intros Ha Hr. rewrite (main_resolved w Ha Hr), run_model_cases. simpl fst.
  destruct (check args); [reflexivity|].
  destruct (w_YOLO w (path_str p)) as [m|e]; [|reflexivity].
  cbv zeta. destruct (w_predict w m _) as [[[|first rest]|]|e]; reflexivity.
Qed.

Lemma resolve_events_of (fs : filesystem) (s : string) (t : list event)
    (r : outcome Path) (e : event) :
  resolve_weights_path fs s = (t, r) -> In e t -> step_of e = Some StepResolve.
Proof.
  intros Hr Hin. apply (resolve_events fs s). rewrite Hr. exact Hin.
Qed.

(** Closes a goal whose hypothesis [H] puts an event into a part of the
    run that cannot perform it. *)
Ltac wrong_step Hr H :=
  first [ discriminate H
        | apply (resolve_events_of _ _ _ Hr) in H; discriminate H
        | apply summary_events in H; discriminate H ].

Lemma construction_after_resolution (w : world) (ws : string) :
  In (EvYOLO ws) (fst (main w)) ->
  exists args t p rest,
    w_args w = Ok args
    /\ check args = false
    /\ resolve_weights_path (w_fs w) (choose_weights (weights args)) = (t, Ok p)
    /\ ws = path_str p
    /\ fst (main w) =
         EvParseArgs :: t ++ EvPrint (MsgUsingWeights p) :: EvYOLO ws :: rest.
Proof.
  intro Hin.
  destruct (w_args w) as [args|e] eqn:Ha.
  2:{ rewrite (main_parse_raises w Ha) in Hin. in_cases Hin. discriminate. }
  destruct (resolve_weights_path (w_fs w) (choose_weights (weights args)))
    as [t [p|e]] eqn:Hr.
  2:{ rewrite (main_unresolved w Ha Hr) in Hin.
      destruct e; in_cases Hin; wrong_step Hr Hin. }
  exists args, t, p.
  rewrite (main_trace_resolved w Ha Hr) in Hin |- *.
  destruct (check args).
  { in_cases Hin; wrong_step Hr Hin. }
  assert (E : ws = path_str p).
  { destruct (w_YOLO w (path_str p)) as [m|e]; cbv zeta in Hin.
    - destruct (w_predict w m _) as [[[|first rest]|]|e];
        in_cases Hin; try wrong_step Hr Hin; now inversion Hin.
    - in_cases Hin; try wrong_step Hr Hin; now inversion Hin. }
  subst ws. eauto 10.
Qed.

Lemma prediction_after_construction (w : world) (m : model) (a : predict_args) :
  In (EvPredict m a) (fst (main w)) ->
  exists ws before after,
    w_YOLO w ws = Ok m
    /\ fst (main w) = before ++ EvYOLO ws :: after
    /\ In (EvPredict m a) after.
Proof.
  intro Hin.
  destruct (w_args w) as [args|e] eqn:Ha.
  2:{ rewrite (main_parse_raises w Ha) in Hin. in_cases Hin. discriminate. }
  destruct (resolve_weights_path (w_fs w) (choose_weights (weights args)))
    as [t [p|e]] eqn:Hr.
  2:{ rewrite (main_unresolved w Ha Hr) in Hin.
      destruct e; in_cases Hin; wrong_step Hr Hin. }
  rewrite (main_trace_resolved w Ha Hr) in Hin |- *.
  destruct (check args).
  { in_cases Hin; wrong_step Hr Hin. }
  exists (path_str p), (EvParseArgs :: t ++ [EvPrint (MsgUsingWeights p)]).
  destruct (w_YOLO w (path_str p)) as [m'|e] eqn:Hy; cbv zeta in Hin |- *.
  2:{ in_cases Hin; wrong_step Hr Hin. }
  eexists. split; [|split].
  2:{ simpl. rewrite <- app_assoc. reflexivity. }
  - destruct (w_predict w m' _) as [[[|first rest]|]|e];
      in_cases Hin; try wrong_step Hr Hin; inversion Hin; subst; reflexivity.
  - destruct (w_predict w m' _) as [[[|first rest]|]|e];
      in_cases Hin; try wrong_step Hr Hin; inversion Hin; subst;
      right; left; reflexivity.
Qed.

Lemma check_stops_after_resolution (w : world) (args : namespace) :
  w_args w = Ok args -> check args = true ->
  (forall t p,
     resolve_weights_path (w_fs w) (choose_weights (weights args)) = (t, Ok p) ->
     main w = (EvParseArgs :: t ++ [EvPrint (MsgUsingWeights p); EvPrint MsgCheckOk],
               Ok tt))
  /\ (forall e, In e (fst (main w)) ->
        step_of e <> Some StepConstruct /\ step_of e <> Some StepPredict).
Proof.
  intros Ha Hc. split.
  - intros t p Hr. rewrite (main_resolved w Ha Hr), run_model_cases, Hc. reflexivity.
  - intros e Hin.
    destruct (resolve_weights_path (w_fs w) (choose_weights (weights args)))
      as [t [p|x]] eqn:Hr.
    + rewrite (main_trace_resolved w Ha Hr), Hc in Hin.
      in_cases Hin; subst; try (split; discriminate);
        rewrite (resolve_events_of _ _ _ Hr Hin); split; discriminate.
    + rewrite (main_unresolved w Ha Hr) in Hin.
      destruct x; in_cases Hin; subst; try (split; discriminate);
        rewrite (resolve_events_of _ _ _ Hr Hin); split; discriminate.
Qed.

Lemma full_run_trace (w : world) (args : namespace) (t : list event) (p : Path)
    (m : model) (src : Z + string) (res : option (list result)) :
  w_args w = Ok args -> check args = false ->
  resolve_weights_path (w_fs w) (choose_weights (weights args)) = (t, Ok p) ->
  w_YOLO w (path_str p) = Ok m ->
  coerce_source (w_int w) (source args) = Ok src ->
  w_predict w m (predict_call args src) = Ok res ->
  fst (main w) =
    EvParseArgs :: t
      ++ [EvPrint (MsgUsingWeights p); EvYOLO (path_str p);
          EvPrint (MsgStarting src); EvPredict m (predict_call args src)]
      ++ match res with
         | Some (first :: _) =>
             EvPrint MsgDone :: fst (summary (model_names m) first)
         | _ => []
         end.
Proof.
  intros Ha Hc Hr Hy Hs Hp.
  rewrite coerce_source_returns in Hs. inversion Hs as [Hsrc].
  rewrite (main_trace_resolved w Ha Hr), Hc, Hy. cbv zeta.
  rewrite Hsrc, Hp. destruct res as [[|first rest]|]; reflexivity.
Qed.

End Run.

(** ** Properties of a run *)

Section RunProperties.

Context {flavour : PathFlavour}.

Lemma main_prefix (w : world) (args : namespace) :
  w_args w = Ok args ->
  exists rest,
    fst (main w) =
      EvParseArgs
        :: fst (resolve_weights_path (w_fs w) (choose_weights (weights args))) ++ rest.
Proof.
  intro Ha.
  destruct (resolve_weights_path (w_fs w) (choose_weights (weights args)))
    as [t [p|e]] eqn:Hr.
  - rewrite (main_resolved w Ha Hr). simpl. eauto.
  - rewrite (main_unresolved w Ha Hr). destruct e; simpl; eauto.
    all: exists []; now rewrite app_nil_r.
Qed.

(** C9: a falsy [--weights] (omitted, or the empty string) makes
    [DEFAULT_WEIGHTS] the spec that is resolved, and the run with
    [--weights ''] is the run without the flag. *)
Theorem empty_weights_means_default (w : world) (a : namespace) :
  (forall given, falsy given = true -> choose_weights given = DEFAULT_WEIGHTS)
  /\ main (with_args w (with_weights a (Some ""))) =
     main (with_args w (with_weights a None))
  /\ (forall given, falsy given = true ->
        exists rest,
          fst (main (with_args w (with_weights a given))) =
            EvParseArgs :: fst (resolve_weights_path (w_fs w) DEFAULT_WEIGHTS) ++ rest).
Proof.
  assert (Hc : forall given, falsy given = true -> choose_weights given = DEFAULT_WEIGHTS).
  { intros [s|] H; [|reflexivity]. unfold falsy in H. unfold choose_weights.
    destruct (PyStr.truthy s); [discriminate|reflexivity]. }
  split; [exact Hc|]. split; [reflexivity|].
  intros given Hf.
  destruct (main_prefix (with_args w (with_weights a given)) eq_refl) as [rest E].
  exists rest. rewrite E. simpl. rewrite (Hc given Hf). reflexivity.
Qed.

(** C6: the steps of every run follow the order parse, resolve,
    construct, predict, summary.  The model is constructed only after the
    resolution has returned a path, and from that path; [predict] is
    called only on a constructed model, after its construction; with
    [--check] the run ends after the resolution, with no construction and
    no prediction; and a run without [--check] in which both library calls
    return goes through all the steps. *)
Theorem main_steps_in_sequence (w : world) :
  in_order (fst (main w))
  /\ (forall ws, In (EvYOLO ws) (fst (main w)) ->
        exists args t p rest,
          w_args w = Ok args
          /\ check args = false
          /\ resolve_weights_path (w_fs w) (choose_weights (weights args)) = (t, Ok p)
          /\ ws = path_str p
          /\ fst (main w) =
               EvParseArgs :: t ++ EvPrint (MsgUsingWeights p) :: EvYOLO ws :: rest)
  /\ (forall m a, In (EvPredict m a) (fst (main w)) ->
        exists ws before after,
          w_YOLO w ws = Ok m
          /\ fst (main w) = before ++ EvYOLO ws :: after
          /\ In (EvPredict m a) after)
  /\ (forall args, w_args w = Ok args -> check args = true ->
        (forall t p,
           resolve_weights_path (w_fs w) (choose_weights (weights args)) = (t, Ok p) ->
           main w =
             (EvParseArgs :: t ++ [EvPrint (MsgUsingWeights p); EvPrint MsgCheckOk],
              Ok tt))
        /\ (forall e, In e (fst (main w)) ->
              step_of e <> Some StepConstruct /\ step_of e <> Some StepPredict))
  /\ (forall args t p m src res,
        w_args w = Ok args -> check args = false ->
        resolve_weights_path (w_fs w) (choose_weights (weights args)) = (t, Ok p) ->
        w_YOLO w (path_str p) = Ok m ->
        coerce_source (w_int w) (source args) = Ok src ->
        w_predict w m (predict_call args src) = Ok res ->
        fst (main w) =
          EvParseArgs :: t
            ++ [EvPrint (MsgUsingWeights p); EvYOLO (path_str p);
                EvPrint (MsgStarting src); EvPredict m (predict_call args src)]
            ++ match res with
               | Some (first :: _) =>
                   EvPrint MsgDone :: fst (summary (model_names m) first)
               | _ => []
               end).
Proof.
  split; [apply main_in_order|].
  split; [apply construction_after_resolution|].
  split; [apply prediction_after_construction|].
  split; [apply check_stops_after_resolution|].
  intros args t p m src res. apply full_run_trace.
Qed.

(** C5, as the code has it: when the weights cannot be resolved the
    program prints the failure and the hint and exits with status 1.  When
    they are resolved it exits with status 0 on the [--check] path and,
    without [--check], whenever the construction of the model and
    [predict] return and the summary raises nothing outside
    [Exception]. *)
Theorem exit_status_of_run (w : world) (args : namespace) :
  w_args w = Ok args ->
  let r := resolve_weights_path (w_fs w) (choose_weights (weights args)) in
  (forall msg, snd r = Raise (FileNotFoundError msg) ->
     main w = (EvParseArgs :: fst r ++ [EvPrint (MsgError msg); EvPrint MsgHint],
               Raise (SystemExit 1))
     /\ exit_status (snd (main w)) = 1)
  /\ (forall p, snd r = Ok p -> check args = true ->
        exit_status (snd (main w)) = 0)
  /\ (forall p m src res,
        snd r = Ok p -> check args = false ->
        w_YOLO w (path_str p) = Ok m ->
        coerce_source (w_int w) (source args) = Ok src ->
        w_predict w m (predict_call args src) = Ok res ->
        (forall first rest e,
           res = Some (first :: rest) ->
           snd (summary_body (model_names m) first) = Raise e ->
           is_Exception e = true) ->
        exit_status (snd (main w)) = 0).
Proof.
  intros Ha r. subst r.
  destruct (resolve_weights_path (w_fs w) (choose_weights (weights args)))
    as [t o] eqn:Hr.
  simpl fst; simpl snd. split; [|split].
  - intros msg ->. rewrite (main_not_found w Ha Hr). split; reflexivity.
  - intros p -> Hc. rewrite (main_resolved w Ha Hr), run_model_cases, Hc. reflexivity.
  - intros p m src res -> Hc Hy Hs Hp Hsum.
    rewrite coerce_source_returns in Hs. inversion Hs as [Hsrc].
    rewrite (main_resolved w Ha Hr), run_model_cases, Hc, Hy. cbv zeta.
    rewrite Hsrc, Hp. destruct res as [[|first rest]|]; try reflexivity.
    simpl snd. rewrite summary_cases.
    specialize (Hsum first rest).
    destruct (summary_body (model_names m) first) as [tb [u|e]]; [reflexivity|].
    rewrite (Hsum e eq_refl eq_refl). reflexivity.
Qed.

(** C7, as the code has it: a failure of class [Exception] raised in the
    guarded part of the summary is swallowed, the fallback line is
    printed in its place and [main] returns.  A failure raised by the
    construction of the model or by [predict] is not caught: it leaves
    [main], and no fallback line is printed. *)
Theorem summary_failures_swallowed (w : world) (args : namespace)
    (t : list event) (p : Path) :
  w_args w = Ok args -> check args = false ->
  resolve_weights_path (w_fs w) (choose_weights (weights args)) = (t, Ok p) ->
  (forall m src first rest tb e,
     w_YOLO w (path_str p) = Ok m ->
     coerce_source (w_int w) (source args) = Ok src ->
     w_predict w m (predict_call args src) = Ok (Some (first :: rest)) ->
     summary_body (model_names m) first = (tb, Raise e) ->
     is_Exception e = true ->
     main w =
       (EvParseArgs :: t
          ++ [EvPrint (MsgUsingWeights p); EvYOLO (path_str p);
              EvPrint (MsgStarting src); EvPredict m (predict_call args src);
              EvPrint MsgDone]
          ++ tb ++ [EvPrint MsgUnavailable],
        Ok tt))
  /\ (forall e, w_YOLO w (path_str p) = Raise e ->
        main w =
          (EvParseArgs :: t ++ [EvPrint (MsgUsingWeights p); EvYOLO (path_str p)],
           Raise e))
  /\ (forall m src e,
        w_YOLO w (path_str p) = Ok m ->
        coerce_source (w_int w) (source args) = Ok src ->
        w_predict w m (predict_call args src) = Raise e ->
        main w =
          (EvParseArgs :: t
             ++ [EvPrint (MsgUsingWeights p); EvYOLO (path_str p);
                 EvPrint (MsgStarting src); EvPredict m (predict_call args src)],
           Raise e)).
Proof.
  intros Ha Hc Hr. rewrite (main_resolved w Ha Hr), run_model_cases, Hc.
  split; [|split].
  - intros m src first rest tb e Hy Hs Hp Hb He.
    rewrite coerce_source_returns in Hs. inversion Hs as [Hsrc].
    rewrite Hy. cbv zeta. rewrite Hsrc, Hp, summary_cases, Hb, He. simpl.
    reflexivity.
  - intros e Hy. rewrite Hy. reflexivity.
  - intros m src e Hy Hs Hp.
    rewrite coerce_source_returns in Hs. inversion Hs as [Hsrc].
    rewrite Hy. cbv zeta. rewrite Hsrc, Hp. reflexivity.
Qed.

End RunProperties.

(** ** The properties on concrete worlds *)

Section Concrete.

Import Examples.

(** A relative spec found only beside the script: two look-ups, the
    working directory first.  Found in both places: one look-up, and the
    path as given.  Under a directory that may not be searched: the first
    look-up raises, and nothing is looked up beside the script. *)
Lemma resolve_relative_cwd_before_script_dir_witness :
  String.eqb (PyStr.upper "best.pt") "AUTO" = false
  /\ is_absolute (mkPath "best.pt") = false
  /\ resolve_weights_path fs_script_only "best.pt" =
       ([EvIsFile (Posix.make "best.pt"); EvIsFile (Posix.make "/opt/app/best.pt")],
        Ok (Posix.make "/opt/app/best.pt"))
  /\ resolve_weights_path fs_both "best.pt" =
       ([EvIsFile (Posix.make "best.pt")], Ok (Posix.make "best.pt"))
  /\ resolve_weights_path Scenarios.fs_unsearchable "secret/best.pt" =
       ([EvIsFile (Posix.make "secret/best.pt")],
        Raise (OtherException "PermissionError")).
Proof.
  split; [reflexivity|]. split; [reflexivity|]. split; [|split].
  - exact (resolve_relative_cwd_before_script_dir fs_script_only "best.pt"
             eq_refl eq_refl).
  - exact (resolve_relative_cwd_before_script_dir fs_both "best.pt"
             eq_refl eq_refl).
  - exact (resolve_relative_cwd_before_script_dir Scenarios.fs_unsearchable
             "secret/best.pt" eq_refl eq_refl).
Defined.

(** Among old.pt (10), new.pt (30), best.pt (20) and tie.pt (30) the
    sentinel gives new.pt, the first of the two newest.  With a link
    gone.pt that leads nowhere listed after best.pt, the search ends at
    that link, with the exception of its [stat]; later.pt is not
    stat'ed.  In a directory without weights the search finds nothing. *)
Lemma resolve_auto_newest_witness :
  resolve_weights_path fs_both "AUTO" =
    ([EvGlob (Posix.make "/opt/app");
      EvStat (Posix.make "/opt/app/old.pt"); EvStat (Posix.make "/opt/app/new.pt");
      EvStat (Posix.make "/opt/app/best.pt"); EvStat (Posix.make "/opt/app/tie.pt")],
     Ok (Posix.make "/opt/app/new.pt"))
  /\ resolve_weights_path Scenarios.fs_dangling "AUTO" =
       ([EvGlob (Posix.make "/opt/app");
         EvStat (Posix.make "/opt/app/best.pt"); EvStat (Posix.make "/opt/app/gone.pt")],
        Raise (FileNotFoundError
                 "[Errno 2] No such file or directory: '/opt/app/gone.pt'"))
  /\ resolve_weights_path fs_empty "AUTO" =
       ([EvGlob (Posix.make "/opt/app")], Raise (FileNotFoundError auto_not_found)).
Proof.
  split; [|split].
  - refine (proj1 (proj2 (proj2 (resolve_auto_newest fs_both)))
              ["old.pt"] "new.pt" ["best.pt"; "tie.pt"] 30 eq_refl eq_refl _ _).
    + intros other [<-|[]]. exists 10. split; [reflexivity|lia].
    + intros other [<-|[<-|[]]].
      * exists 20. split; [reflexivity|lia].
      * exists 30. split; [reflexivity|lia].
  - refine (proj2 (proj2 (proj2 (resolve_auto_newest Scenarios.fs_dangling)))
              ["best.pt"] "gone.pt" ["later.pt"] _ eq_refl _ eq_refl).
    intros other [<-|[]]. exists 20. reflexivity.
  - refine (proj1 (resolve_auto_newest fs_empty) _).
    intros name H. simpl in H.
    repeat (destruct H as [<-|H]; [reflexivity|]). destruct H.
Defined.

(** An absolute spec outside both directories. *)
Lemma resolve_absolute_existing_witness :
  String.eqb (PyStr.upper "/srv/models/fire.pt") "AUTO" = false
  /\ is_absolute (mkPath "/srv/models/fire.pt") = true
  /\ fs_is_file fs_both (mkPath "/srv/models/fire.pt") = Ok true
  /\ resolve_weights_path fs_both "/srv/models/fire.pt" =
       ([EvIsFile (Posix.make "/srv/models/fire.pt")],
        Ok (Posix.make "/srv/models/fire.pt"))
  /\ build_candidates fs_both (mkPath "/srv/models/fire.pt") =
       [Posix.make "/srv/models/fire.pt"].
Proof.
  split; [reflexivity|]. split; [reflexivity|]. split; [reflexivity|].
  exact (resolve_absolute_existing fs_both "/srv/models/fire.pt"
           eq_refl eq_refl eq_refl).
Defined.

(** The spelling Auto, in a directory that also holds a file AUTO. *)
Lemma sentinel_case_insensitive_witness :
  PyStr.upper "Auto" = "AUTO"
  /\ resolve_weights_path fs_file_named_auto "Auto" =
     resolve_weights_path fs_file_named_auto "AUTO"
  /\ fst (resolve_weights_path fs_file_named_auto "Auto") =
       EvGlob (fs_script_dir fs_file_named_auto)
         :: map EvStat (stat_prefix fs_file_named_auto (glob_pt fs_file_named_auto))
  /\ forall p, ~ In (EvIsFile p) (fst (resolve_weights_path fs_file_named_auto "Auto")).
Proof.
  split; [reflexivity|].
  exact (sentinel_case_insensitive fs_file_named_auto "Auto" eq_refl).
Defined.

(** C3 as worded fails: with a regular file called AUTO in the working
    directory, the listed order would find that file first, while the code
    goes straight to the newest-file search and looks up no path. *)
Lemma listed_order_fails_on_sentinel :
  resolve_in_listed_order fs_file_named_auto "AUTO" =
    ([EvIsFile (Posix.make "AUTO")], Ok (Posix.make "AUTO"))
  /\ resolve_weights_path fs_file_named_auto "AUTO" =
       ([EvGlob (Posix.make "/opt/app"); EvStat (Posix.make "/opt/app/best.pt")],
        Ok (Posix.make "/opt/app/best.pt"))
  /\ resolve_weights_path fs_file_named_auto "AUTO" <>
     resolve_in_listed_order fs_file_named_auto "AUTO".
Proof.
  split; [reflexivity|]. split; [reflexivity|].
  intro H. vm_compute in H. discriminate H.
Qed.

(** The default weights are missing: status 1, after the error and the
    hint. *)
Lemma exit_status_of_run_witness :
  w_args (w_ok default_args fs_both) = Ok default_args
  /\ exit_status (snd (main (w_ok default_args fs_both))) = 1
  /\ exit_status (snd (main (w_ok (with_check best_pt) fs_both))) = 0
  /\ exit_status (snd (main (w_ok best_pt fs_both))) = 0.
Proof.
  split; [reflexivity|]. split; [|split].
  - exact (proj2 (proj1 (exit_status_of_run (w_ok default_args fs_both) eq_refl)
                    _ eq_refl)).
  - exact (proj1 (proj2 (exit_status_of_run (w_ok (with_check best_pt) fs_both) eq_refl))
             _ eq_refl eq_refl).
  - refine (proj2 (proj2 (exit_status_of_run (w_ok best_pt fs_both) eq_refl))
              _ _ _ _ eq_refl eq_refl eq_refl eq_refl eq_refl _).
    intros first rest e H. inversion H; subst. vm_compute. discriminate.
Defined.

(** C5 as worded fails: the weights are resolved, the camera cannot be
    opened, [predict] raises and the status is 1. *)
Lemma resolved_run_can_exit_nonzero :
  snd (resolve_weights_path fs_both (choose_weights (weights best_pt)))
    = Ok (Posix.make "best.pt")
  /\ check best_pt = false
  /\ snd (main (w_no_camera best_pt fs_both)) = Raise (OtherException "ConnectionError")
  /\ exit_status (snd (main (w_no_camera best_pt fs_both))) = 1
  /\ exit_status (snd (main (w_no_camera best_pt fs_both))) <> 0.
Proof.
  repeat split; try reflexivity. vm_compute. discriminate.
Qed.

(** A full run on the camera: every step, in order. *)
Lemma main_steps_in_sequence_witness :
  in_order (fst (main (w_ok best_pt fs_both)))
  /\ steps (fst (main (w_ok best_pt fs_both))) =
       [StepParse; StepResolve; StepConstruct; StepPredict;
        StepSummary; StepSummary; StepSummary]
  /\ main (w_ok (with_check best_pt) fs_both) =
       ([EvParseArgs; EvIsFile (Posix.make "best.pt");
         EvPrint (MsgUsingWeights (Posix.make "best.pt")); EvPrint MsgCheckOk],
        Ok tt).
Proof.
  split; [exact (proj1 (main_steps_in_sequence (w_ok best_pt fs_both)))|].
  split; [reflexivity|].
  exact (proj1 (proj1 (proj2 (proj2 (proj2
           (main_steps_in_sequence (w_ok (with_check best_pt) fs_both)))))
           _ eq_refl eq_refl) _ _ eq_refl).
Defined.

(** The second box fails to give its class: the fallback line replaces
    the rest of the summary and [main] returns. *)
Lemma summary_failures_swallowed_witness :
  w_args (w_drift best_pt fs_both) = Ok best_pt
  /\ check best_pt = false
  /\ main (w_drift best_pt fs_both) =
       ([EvParseArgs; EvIsFile (Posix.make "best.pt");
         EvPrint (MsgUsingWeights (Posix.make "best.pt")); EvYOLO "best.pt";
         EvPrint (MsgStarting (inl 0));
         EvPredict fire_model (predict_call best_pt (inl 0));
         EvPrint MsgDone; EvPrint (MsgDetection 1 "smoke" 0.5%Q);
         EvPrint MsgUnavailable],
        Ok tt).
Proof.
  split; [reflexivity|]. split; [reflexivity|].
  exact (proj1 (summary_failures_swallowed (w_drift best_pt fs_both)
                  (t := [EvIsFile (Posix.make "best.pt")]) (p := Posix.make "best.pt")
                  eq_refl eq_refl eq_refl)
           fire_model (inl 0) _ [] [EvPrint (MsgDetection 1 "smoke" 0.5%Q)]
           (OtherException "IndexError") eq_refl eq_refl eq_refl eq_refl eq_refl).
Defined.

(** C7 as worded fails: the weights file is found but is not a model, the
    constructor raises, the failure leaves [main] and no fallback line is
    printed. *)
Lemma construction_failure_propagates :
  w_YOLO (w_bad_weights best_pt fs_both) "best.pt"
    = Raise (OtherException "UnpicklingError")
  /\ main (w_bad_weights best_pt fs_both) =
       ([EvParseArgs; EvIsFile (Posix.make "best.pt");
         EvPrint (MsgUsingWeights (Posix.make "best.pt")); EvYOLO "best.pt"],
        Raise (OtherException "UnpicklingError"))
  /\ ~ In (EvPrint MsgUnavailable) (fst (main (w_bad_weights best_pt fs_both))).
Proof.
  split; [reflexivity|]. split; [reflexivity|].
  intro H. vm_compute in H.
  repeat (destruct H as [H|H]; [discriminate H|]). exact H.
Qed.

(** Camera 1000 written with a sign, an underscore and blanks around it;
    and the writing of -42. *)
Lemma coerce_source_int_or_same_witness :
  PyStr.is_ascii " +1_000 " = true
  /\ int_syntax " +1_000 " 1000
  /\ coerce_source (fun _ => None) " +1_000 " = Ok (inl 1000)
  /\ Z.of_nat (String.length (PyStr.of_int (-42))) <= int_max_str_digits
  /\ coerce_source (fun _ => None) (PyStr.of_int (-42)) = Ok (inl (-42)).
Proof.
  assert (Hs : int_syntax " +1_000 " 1000).
  { apply (@int_syntax_intro _ _ " " "+" "1_000" " "); try reflexivity.
    - right. left. reflexivity.
    - apply grouped_under; [reflexivity|].
      apply grouped_more; [reflexivity|].
      apply grouped_more; [reflexivity|].
      apply grouped_one. reflexivity.
    - vm_compute. discriminate. }
  assert (Hl : Z.of_nat (String.length (PyStr.of_int (-42))) <= int_max_str_digits)
    by (vm_compute; discriminate).
  split; [reflexivity|]. split; [exact Hs|]. split; [|split; [exact Hl|]].
  - exact (proj2 (proj1 (proj2 (proj2 (coerce_source_int_or_same (fun _ => None))))
                    " +1_000 " 1000 eq_refl) Hs).
  - exact (proj1 (proj2 (proj2 (proj2 (proj2
             (coerce_source_int_or_same (fun _ => None))))))
             (-42) Hl).
Defined.

End Concrete.

(** * Further properties *)

(** ** More on the resolution *)

Section ResolutionFacts.

Context {flavour : PathFlavour}.

(** A path found by the search is a candidate whose look-up answered
    [True], after a look-up that answered [False] for each candidate
    before it. *)
Lemma first_file_found (fs : filesystem) (cs : list Path) (c : Path) :
  snd (first_file fs cs) = Ok (Some c) ->
  fs_is_file fs c = Ok true
  /\ exists before after,
       cs = before ++ c :: after
       /\ forall b, In b before -> fs_is_file fs b = Ok false.
Proof.
  induction cs as [|x xs IH]; simpl; [discriminate|].
  unfold call. destruct (fs_is_file fs x) as [[|]|e] eqn:E; simpl.
  - intro H. inversion H; subst. split; [exact E|].
    exists [], xs. split; [reflexivity|intros b []].
  - destruct (first_file fs xs) as [t r]. simpl in *. intro H.
    destruct (IH H) as (Hc & before & after & -> & Hb). split; [exact Hc|].
    exists (x :: before), after. split; [reflexivity|].
    intros b [<-|Hin]; [exact E|apply Hb, Hin].
  - discriminate.
Qed.

Lemma first_file_none (fs : filesystem) (cs : list Path) :
  snd (first_file fs cs) = Ok None <-> forall c, In c cs -> fs_is_file fs c = Ok false.
Proof.
  induction cs as [|x xs IH]; simpl.
  - split; [intros _ c []|reflexivity].
  - unfold call. destruct (fs_is_file fs x) as [[|]|e] eqn:E; simpl.
    + split; [discriminate|]. intro H. rewrite (H x (or_introl eq_refl)) in E.
      discriminate.
    + destruct (first_file fs xs) as [t r]. simpl in *. rewrite IH.
      split; [intros H c [<-|Hc]; auto|intros H c Hc; apply H; now right].
    + split; [discriminate|]. intro H. rewrite (H x (or_introl eq_refl)) in E.
      discriminate.
Qed.

(** An exception of the search is the exception of a look-up. *)
Lemma first_file_raise (fs : filesystem) (cs : list Path) (e : exn) :
  snd (first_file fs cs) = Raise e ->
  exists before c after,
    cs = before ++ c :: after
    /\ (forall b, In b before -> fs_is_file fs b = Ok false)
    /\ fs_is_file fs c = Raise e.
Proof.
  induction cs as [|x xs IH]; simpl; [discriminate|].
  unfold call. destruct (fs_is_file fs x) as [[|]|x'] eqn:E; simpl.
  - discriminate.
  - destruct (first_file fs xs) as [t r]. simpl in *. intro H.
    destruct (IH H) as (before & c & after & -> & Hb & Hc).
    exists (x :: before), c, after. split; [reflexivity|]. split; [|exact Hc].
    intros b [<-|Hin]; [exact E|apply Hb, Hin].
  - intro H. inversion H; subst. exists [], x, xs.
    split; [reflexivity|]. split; [intros b []|exact E].
Qed.

Lemma resolve_plain_outcome (fs : filesystem) (s : string) :
  String.eqb (PyStr.upper s) "AUTO" = false ->
  snd (resolve_weights_path fs s) =
    match snd (first_file fs (build_candidates fs (mkPath s))) with
    | Ok (Some c) => Ok c
    | Ok None =>
        Raise (FileNotFoundError
                 (not_found_message s (build_candidates fs (mkPath s))))
    | Raise e => Raise e
    end.
Proof.
  intro Hs. rewrite (resolve_plain fs s Hs). cbv zeta.
  destruct (first_file fs (build_candidates fs (mkPath s))) as [t [[c|]|e]];
    reflexivity.
Qed.

Lemma resolve_found_is_file (fs : filesystem) (s : string) (p : Path) :
  String.eqb (PyStr.upper s) "AUTO" = false ->
  snd (resolve_weights_path fs s) = Ok p ->
  In p (build_candidates fs (mkPath s)) /\ fs_is_file fs p = Ok true.
Proof.
  intros Hs. rewrite (resolve_plain_outcome fs s Hs).
  destruct (snd (first_file fs (build_candidates fs (mkPath s))))
    as [[c|]|e] eqn:E; intro H; inversion H; subst.
  destruct (first_file_found _ _ E) as (Hc & before & after & Hcs & _).
  split; [|exact Hc]. rewrite Hcs. apply in_or_app. right. now left.
Qed.

(** X1: for a spec that is not the sentinel, a returned path is one of
    the candidates, its look-up answered [True] and the look-up of every
    candidate before it answered [False].  When every look-up answers
    [False] the call raises [FileNotFoundError] with the message that
    lists the candidates.  An exception of the call is that one, or the
    exception of the look-up of a candidate, raised after the look-ups
    before it answered [False]. *)
Theorem resolve_returns_existing_file (fs : filesystem) (s : string) :
  String.eqb (PyStr.upper s) "AUTO" = false ->
  let candidates := build_candidates fs (mkPath s) in
  (forall p, snd (resolve_weights_path fs s) = Ok p ->
     fs_is_file fs p = Ok true
     /\ exists before after,
          candidates = before ++ p :: after
          /\ forall b, In b before -> fs_is_file fs b = Ok false)
  /\ ((forall c, In c candidates -> fs_is_file fs c = Ok false) ->
      snd (resolve_weights_path fs s) =
        Raise (FileNotFoundError (not_found_message s candidates)))
  /\ (forall e, snd (resolve_weights_path fs s) = Raise e ->
        ((forall c, In c candidates -> fs_is_file fs c = Ok false)
         /\ e = FileNotFoundError (not_found_message s candidates))
        \/ exists before c after,
             candidates = before ++ c :: after
             /\ (forall b, In b before -> fs_is_file fs b = Ok false)
             /\ fs_is_file fs c = Raise e).
Proof.
  intros Hs candidates. subst candidates.
  rewrite (resolve_plain_outcome fs s Hs). split; [|split].
  - intros p H.
    destruct (snd (first_file fs (build_candidates fs (mkPath s))))
      as [[c|]|e] eqn:E; inversion H; subst.
    apply first_file_found, E.
  - intro H. apply first_file_none in H. rewrite H. reflexivity.
  - intros e H.
    destruct (snd (first_file fs (build_candidates fs (mkPath s))))
      as [[c|]|x] eqn:E; inversion H; subst.
    + left. split; [apply first_file_none, E|reflexivity].
    + right. apply first_file_raise, E.
Qed.

(** X2: an absolute spec whose look-up answers [False] raises
    [FileNotFoundError] after that one look-up: nothing is tried under the
    script's directory, and the message names the spec and that one path.
    When the look-up raises, the call ends with its exception. *)
Theorem resolve_absolute_missing (fs : filesystem) (s : string) :
  String.eqb (PyStr.upper s) "AUTO" = false ->
  is_absolute (mkPath s) = true ->
  (fs_is_file fs (mkPath s) = Ok false ->
   resolve_weights_path fs s =
     ([EvIsFile (mkPath s)],
      Raise (FileNotFoundError
               ("Could not find weights file for spec '" ++ s ++ "'. Tried: "
                  ++ path_str (mkPath s)))))
  /\ (forall e, fs_is_file fs (mkPath s) = Raise e ->
        resolve_weights_path fs s = ([EvIsFile (mkPath s)], Raise e)).
Proof.
  intros Hs Habs.
  rewrite (resolve_plain fs s Hs). cbv zeta.
  unfold build_candidates. rewrite Habs, first_file_one.
  split; [intros ->|intros e ->]; reflexivity.
Qed.

Lemma stat_all_ext (fs fs' : filesystem) (ps : list Path) :
  (forall p, In p ps -> fs_stat fs p = fs_stat fs' p) ->
  stat_all fs ps = stat_all fs' ps.
Proof.
  induction ps as [|p ps IH]; intro H; simpl; [reflexivity|].
  rewrite (H p (or_introl eq_refl)), IH by (intros q Hq; apply H; now right).
  reflexivity.
Qed.

Lemma first_file_ext (fs fs' : filesystem) (cs : list Path) :
  (forall c, In c cs -> fs_is_file fs c = fs_is_file fs' c) ->
  first_file fs cs = first_file fs' cs.
Proof.
  induction cs as [|c cs IH]; intro H; simpl; [reflexivity|].
  rewrite (H c (or_introl eq_refl)), IH by (intros q Hq; apply H; now right).
  reflexivity.
Qed.

(** X3: the two branches read disjoint parts of the file system.  With
    the sentinel the result depends on the script's directory, its listing
    and the [stat] of the matching entries only, never on the look-ups;
    without it the result depends on the script's directory and on the
    look-ups of the candidates only, never on the listing nor on any
    [stat]. *)
Theorem resolve_reads_what_its_branch_needs (fs fs' : filesystem) (s : string) :
  fs_script_dir fs = fs_script_dir fs' ->
  (PyStr.upper s = "AUTO" ->
   fs_scandir fs = fs_scandir fs' ->
   (forall p, In p (glob_pt fs) -> fs_stat fs p = fs_stat fs' p) ->
   resolve_weights_path fs s = resolve_weights_path fs' s)
  /\ (String.eqb (PyStr.upper s) "AUTO" = false ->
      (forall p, In p (build_candidates fs (mkPath s)) ->
         fs_is_file fs p = fs_is_file fs' p) ->
      resolve_weights_path fs s = resolve_weights_path fs' s).
Proof.
  intro Hd. split.
  - intros Hs Hl Hm.
    assert (Hg : glob_pt fs = glob_pt fs') by (unfold glob_pt; now rewrite Hd, Hl).
    rewrite !(resolve_sentinel _ s Hs), <- !stat_all_trace, <- Hg, <- Hd.
    rewrite (stat_all_ext fs fs' (glob_pt fs) Hm). reflexivity.
  - intros Hs Hf.
    assert (Hb : build_candidates fs (mkPath s) = build_candidates fs' (mkPath s))
      by (unfold build_candidates; now rewrite Hd).
    rewrite !(resolve_plain _ s Hs). cbv zeta. rewrite <- Hb.
    rewrite (first_file_ext fs fs' _ Hf). reflexivity.
Qed.

End ResolutionFacts.

(** ** Resolution on POSIX paths *)

Section PosixResolution.

Import Posix.

Lemma join_well_formed (a b : path) :
  well_formed a -> well_formed b -> well_formed (join a b).
Proof.
  intros [Ra Pa] [Rb Pb]. unfold join. destruct (absolute b); [now split|].
  split; simpl; [exact Ra|]. apply Forall_app. auto.
Qed.

Lemma candidates_well_formed (fs : filesystem) (s : string) (p : path) :
  well_formed (fs_script_dir fs) ->
  In p (build_candidates fs (mkPath s)) -> well_formed p.
Proof.
  intros Hd. unfold build_candidates.
  destruct (is_absolute (mkPath s)).
  - intros [<-|[]]. apply make_well_formed.
  - intros [<-|[<-|[]]]; [apply make_well_formed|].
    apply join_well_formed; [exact Hd|apply make_well_formed].
Qed.

Lemma resolve_path_string (fs : filesystem) (p : @Path posix) :
  well_formed p ->
  String.eqb (PyStr.upper (path_str p)) "AUTO" = false ->
  (fs_is_file fs p = Ok true ->
   resolve_weights_path fs (path_str p) = ([EvIsFile p], Ok p))
  /\ exists rest, fst (resolve_weights_path fs (path_str p)) = EvIsFile p :: rest.
Proof.
  intros Hp Hs. rewrite (resolve_plain fs (path_str p) Hs). cbv zeta.
  replace (mkPath (path_str p)) with p by (symmetry; exact (make_to_str Hp)).
  unfold build_candidates.
  destruct (is_absolute p).
  - rewrite first_file_one. split.
    + intros ->. reflexivity.
    + destruct (fs_is_file fs p) as [[|]|e]; simpl; eauto.
  - rewrite first_file_two. split.
    + intros ->. reflexivity.
    + destruct (fs_is_file fs p) as [[|]|e]; [simpl; eauto| |simpl; eauto].
      destruct (fs_is_file fs (joinpath (fs_script_dir fs) p)) as [[|]|e];
        simpl; eauto.
Qed.

(** X4: a weights spec given as a path object is searched as that very
    path: the string of a well-formed path is read back as the path, so
    the first look-up is the path itself, and the path is returned after
    that one look-up when it answers [True]. *)
Theorem resolve_path_object (fs : filesystem) (p : @Path posix) :
  well_formed p ->
  String.eqb (PyStr.upper (path_str p)) "AUTO" = false ->
  mkPath (path_str p) = p
  /\ (fs_is_file fs p = Ok true ->
      resolve_weights_path fs (path_str p) = ([EvIsFile p], Ok p))
  /\ exists rest, fst (resolve_weights_path fs (path_str p)) = EvIsFile p :: rest.
Proof.
  intros Hp Hs. split; [exact (make_to_str Hp)|].
  exact (resolve_path_string fs Hp Hs).
Qed.

(** X5: resolving is idempotent.  The string of a resolved path, as the
    program prints it, resolves to the same path with a single look-up
    (as long as that string is not itself a spelling of the sentinel). *)
Theorem resolve_resolved_path (fs : filesystem) (s : string)
    (t : list event) (p : @Path posix) :
  well_formed (fs_script_dir fs) ->
  String.eqb (PyStr.upper s) "AUTO" = false ->
  resolve_weights_path fs s = (t, Ok p) ->
  String.eqb (PyStr.upper (path_str p)) "AUTO" = false ->
  resolve_weights_path fs (path_str p) = ([EvIsFile p], Ok p).
Proof.
  intros Hd Hs Hr Hp.
  assert (H : snd (resolve_weights_path fs s) = Ok p) by (now rewrite Hr).
  destruct (resolve_found_is_file fs s Hs H) as [Hin Hfile].
  apply (proj1 (resolve_path_string fs (candidates_well_formed fs s p Hd Hin) Hp)).
  exact Hfile.
Qed.

End PosixResolution.

(** ** More on the source selector *)

Section SourceFacts.

Variable beyond : string -> option Z.

Lemma str_forall_app_inv (f : ascii -> bool) (a b : string) :
  str_forall f (a ++ b) = true -> str_forall f a = true /\ str_forall f b = true.
Proof.
  rewrite str_forall_app. apply andb_prop.
Qed.

Lemma str_exists_not_forall (f : ascii -> bool) (s : string) :
  str_exists (fun c => negb (f c)) s = true -> str_forall f s = false.
Proof.
  induction s as [|c s IH]; simpl; [discriminate|].
  destruct (f c); simpl; [exact IH|reflexivity].
Qed.

Lemma grouped_int_char (s : string) : grouped s -> str_forall int_char s = true.
Proof.
  unfold int_char.
  induction 1 as [c Hc|c s Hc _ IH|c s Hc _ IH]; simpl; rewrite Hc;
    simpl; [reflexivity|exact IH|exact IH].
Qed.

(** Every character of a literal is a digit, a sign, an underscore or
    white space. *)
Lemma int_syntax_chars (s : string) (n : Z) :
  int_syntax s n -> str_forall int_char s = true.
Proof.
  intros [l sign body r -> Hl Hr Hsign Hg _ _].
  assert (Hsp : forall t, str_forall int_space t = true -> str_forall int_char t = true).
  { intro t. apply str_forall_impl. intros c Hc. unfold int_char.
    rewrite Hc. now rewrite orb_true_r. }
  rewrite !str_forall_app, (Hsp l Hl), (Hsp r Hr), (grouped_int_char Hg).
  destruct Hsign as [-> | [-> | ->]]; reflexivity.
Qed.

(** X7: an ASCII source that holds any character other than a digit, a
    sign, an underscore or the white space [int()] strips (a file name, a
    URL) is never taken for a camera index: it is passed on unchanged. *)
Theorem coerce_source_keeps_names (s : string) :
  PyStr.is_ascii s = true ->
  str_exists (fun c => negb (int_char c)) s = true ->
  coerce_source beyond s = Ok (inr s).
Proof.
  intros Ha H. rewrite coerce_source_returns, Ha.
  destruct (int_ascii s) as [n|] eqn:E; [|reflexivity].
  apply int_ascii_sound, int_syntax_chars in E.
  rewrite (str_exists_not_forall _ _ H) in E. discriminate E.
Qed.

Lemma is_space_ascii (c : ascii) : PyStr.is_space c = true -> PyStr.is_ascii_char c = true.
Proof.
  unfold PyStr.is_space, PyStr.is_ascii_char. cbv zeta. intro H.
  apply Nat.ltb_lt. apply orb_prop in H.
  destruct H as [H|H]; apply andb_prop in H; destruct H as [_ H];
    apply Nat.leb_le in H; lia.
Qed.

Lemma is_space_not_digit (c : ascii) : PyStr.is_space c = true -> PyStr.is_digit c = false.
Proof.
  unfold PyStr.is_space, PyStr.is_digit. cbv zeta. intro H.
  apply orb_prop in H.
  destruct H as [H|H]; apply andb_prop in H; destruct H as [_ H];
    apply Nat.leb_le in H;
    (destruct (Nat.leb_spec 48 (nat_of_ascii c)); [lia|reflexivity]).
Qed.

(** X8: a source that is empty or made of white space only is not an
    integer: it is passed on unchanged. *)
Theorem coerce_source_blank (s : string) :
  str_forall PyStr.is_space s = true -> coerce_source beyond s = Ok (inr s).
Proof.
  intro H. rewrite coerce_source_returns, (is_ascii_forall _ s is_space_ascii H).
  destruct (int_ascii s) as [n|] eqn:E; [|reflexivity].
  apply int_ascii_sound in E.
  destruct E as [l sign body r -> _ _ _ Hg _ _].
  apply str_forall_app_inv in H. destruct H as [_ H].
  apply str_forall_app_inv in H. destruct H as [_ H].
  apply str_forall_app_inv in H. destruct H as [H _].
  destruct (grouped_head Hg) as (c & t & -> & Hc). simpl in H.
  apply andb_prop in H. destruct H as [H _].
  rewrite (is_space_not_digit c H) in Hc. discriminate Hc.
Qed.

(** X9: the white space [int()] strips, around an ASCII source, does not
    change whether it is a camera index nor which one: padded on either
    side, an integer is read as the same integer, and anything else is
    passed on as it was given, padding included. *)
Theorem coerce_source_padding (l s r : string) :
  PyStr.is_ascii s = true ->
  str_forall int_space l = true ->
  str_forall int_space r = true ->
  coerce_source beyond (l ++ s ++ r)%string =
    match coerce_source beyond s with
    | Ok (inl n) => Ok (inl n)
    | _ => Ok (inr (l ++ s ++ r)%string)
    end.
Proof.
  intros Ha Hl Hr. rewrite !coerce_source_returns, Ha.
  rewrite !is_ascii_app, Ha, (is_ascii_forall _ l int_space_ascii Hl),
    (is_ascii_forall _ r int_space_ascii Hr).
  cbn [andb].
  assert (E : int_ascii (l ++ s ++ r)%string = int_ascii s)
    by (unfold int_ascii; now rewrite (int_strip_app_spaces l s r Hl Hr)).
  rewrite E. destruct (int_ascii s); reflexivity.
Qed.

End SourceFacts.

(** ** More on the run *)

Section RunFacts.

Context {flavour : PathFlavour}.

(** Splits a hypothesis [In e t] along the visible structure of [t]. *)
Ltac split_in H :=
  simpl in H;
  repeat match type of H with
         | In _ (_ ++ _) => apply in_app_or in H; destruct H as [H|H]
         | In _ (_ :: _) => simpl in H
         | In _ [] => destruct H
         | _ \/ _ => destruct H as [H|H]
         | False => destruct H
         end.

(** Closes a goal whose hypothesis [H] puts an event into a part of the
    run that cannot perform it. *)
Ltac not_there Hr H :=
  first [ discriminate H
        | apply (resolve_events_of _ _ _ Hr) in H; discriminate H
        | apply summary_events in H; discriminate H ].

(** X10: a run that ends in an exception without having constructed the
    model ended in [argparse], or in the exit with status 1 that follows
    the error line and the hint, or in an exception of the resolution that
    is not a [FileNotFoundError]: that one leaves [main] as it was raised,
    right after the look-ups, with no line printed. *)
Theorem failure_before_construction (w : world) (e : exn) :
  snd (main w) = Raise e ->
  (forall ws, ~ In (EvYOLO ws) (fst (main w))) ->
  (w_args w = Raise e /\ fst (main w) = [EvParseArgs])
  \/ (e = SystemExit 1
      /\ exists args t msg,
           w_args w = Ok args
           /\ resolve_weights_path (w_fs w) (choose_weights (weights args))
              = (t, Raise (FileNotFoundError msg))
           /\ fst (main w) =
                EvParseArgs :: t ++ [EvPrint (MsgError msg); EvPrint MsgHint])
  \/ (is_FileNotFoundError e = false
      /\ exists args t,
           w_args w = Ok args
           /\ resolve_weights_path (w_fs w) (choose_weights (weights args))
              = (t, Raise e)
           /\ fst (main w) = EvParseArgs :: t).
Proof.
  intros He Hno.
  destruct (w_args w) as [args|x] eqn:Ha.
  2:{ left. rewrite (main_parse_raises w Ha) in *. simpl in He.
      inversion He; subst. auto. }
  right.
  destruct (resolve_weights_path (w_fs w) (choose_weights (weights args)))
    as [t [p|x]] eqn:Hr.
  2:{ rewrite (main_unresolved w Ha Hr) in *.
      destruct x as [msg| | | |]; simpl in He; inversion He; subst;
        [left; split; [reflexivity|]; exists args, t, msg; auto|..];
        right; (split; [reflexivity|]); exists args, t; auto. }
  exfalso.
  pose proof (main_trace_resolved w Ha Hr) as Ht.
  rewrite (main_resolved w Ha Hr), run_model_cases in He. simpl snd in He.
  destruct (check args); [discriminate He|].
  apply (Hno (path_str p)). rewrite Ht. right.
  apply in_or_app. right. right. left. reflexivity.
Qed.

(** X11: in a run whose flags were parsed, the line [Using weights: p] is
    printed exactly when the resolution returned [p], and the hint exactly
    when the resolution raised [FileNotFoundError]; no run prints both;
    and when the resolution raises anything else the run prints neither
    and ends with that exception. *)
Theorem using_weights_or_hint (w : world) (args : namespace) :
  w_args w = Ok args ->
  (forall p, In (EvPrint (MsgUsingWeights p)) (fst (main w)) <->
     snd (resolve_weights_path (w_fs w) (choose_weights (weights args))) = Ok p)
  /\ (In (EvPrint MsgHint) (fst (main w)) <->
      exists msg,
        snd (resolve_weights_path (w_fs w) (choose_weights (weights args)))
          = Raise (FileNotFoundError msg))
  /\ (forall p, ~ (In (EvPrint (MsgUsingWeights p)) (fst (main w))
                   /\ In (EvPrint MsgHint) (fst (main w))))
  /\ (forall e,
        snd (resolve_weights_path (w_fs w) (choose_weights (weights args))) = Raise e ->
        is_FileNotFoundError e = false ->
        main w =
          (EvParseArgs
             :: fst (resolve_weights_path (w_fs w) (choose_weights (weights args))),
           Raise e)
        /\ ~ In (EvPrint MsgHint) (fst (main w))
        /\ forall p, ~ In (EvPrint (MsgUsingWeights p)) (fst (main w))).
Proof.
  intro Ha.
  assert (Huse : forall p, In (EvPrint (MsgUsingWeights p)) (fst (main w)) <->
            snd (resolve_weights_path (w_fs w) (choose_weights (weights args))) = Ok p).
  { destruct (resolve_weights_path (w_fs w) (choose_weights (weights args)))
      as [t [p0|x]] eqn:Hr; simpl snd.
    - rewrite (main_trace_resolved w Ha Hr). intro p. split.
      + intro H. destruct (check args).
        { split_in H; try not_there Hr H. now inversion H. }
        destruct (w_YOLO w (path_str p0)) as [m|x]; cbv zeta in H.
        * destruct (w_predict w m _) as [[[|first rest]|]|x];
            split_in H; try not_there Hr H; now inversion H.
        * split_in H; try not_there Hr H. now inversion H.
      + intro H. inversion H; subst. right. apply in_or_app. right. now left.
    - rewrite (main_unresolved w Ha Hr). intro p. split; [|discriminate].
      intro H. destruct x; split_in H; not_there Hr H. }
  assert (Hhint : In (EvPrint MsgHint) (fst (main w)) <->
            exists msg,
              snd (resolve_weights_path (w_fs w) (choose_weights (weights args)))
                = Raise (FileNotFoundError msg)).
  { destruct (resolve_weights_path (w_fs w) (choose_weights (weights args)))
      as [t [p0|x]] eqn:Hr; simpl snd.
    - rewrite (main_trace_resolved w Ha Hr).
      split; [|intros [msg H]; discriminate H].
      intro H. exfalso. destruct (check args).
      { split_in H; not_there Hr H. }
      destruct (w_YOLO w (path_str p0)) as [m|x]; cbv zeta in H.
      + destruct (w_predict w m _) as [[[|first rest]|]|x];
          split_in H; not_there Hr H.
      + split_in H; not_there Hr H.
    - rewrite (main_unresolved w Ha Hr).
      destruct x as [msg| | | |]; simpl fst.
      + split; [eauto|]. intros _. right. apply in_or_app. right. right. now left.
      + split; [|intros [msg H]; discriminate H].
        intro H. split_in H; not_there Hr H.
      + split; [|intros [msg H]; discriminate H].
        intro H. split_in H; not_there Hr H.
      + split; [|intros [msg H]; discriminate H].
        intro H. split_in H; not_there Hr H.
      + split; [|intros [msg H]; discriminate H].
        intro H. split_in H; not_there Hr H. }
  split; [exact Huse|]. split; [exact Hhint|]. split.
  - intros p [Hu Hh]. apply Huse in Hu. apply Hhint in Hh.
    destruct Hh as [msg Hh]. rewrite Hh in Hu. discriminate Hu.
  - intros e He Hnf. split; [|split].
    + destruct (resolve_weights_path (w_fs w) (choose_weights (weights args)))
        as [t r] eqn:Hr. simpl in He. subst r.
      rewrite (main_unresolved w Ha Hr). destruct e; try reflexivity.
      discriminate Hnf.
    + intro H. apply Hhint in H. destruct H as [msg H].
      rewrite H in He. inversion He; subst. discriminate Hnf.
    + intros p H. apply Huse in H. rewrite H in He. discriminate He.
Qed.

(** X12: whenever [predict] is called, it is called on the coerced
    source, with the threshold, the size and the two switches of the
    command line as they were given, never streaming, always verbose, and
    with no device when the device flag is empty. *)
Theorem predict_arguments (w : world) (m : model) (a : predict_args) :
  In (EvPredict m a) (fst (main w)) ->
  exists args src,
    w_args w = Ok args
    /\ check args = false
    /\ coerce_source (w_int w) (source args) = Ok src
    /\ pa_source a = src
    /\ pa_conf a = conf args /\ pa_imgsz a = imgsz args
    /\ pa_show a = show args /\ pa_save a = save args
    /\ pa_stream a = false /\ pa_verbose a = true
    /\ (device args = EmptyString -> pa_device a = None)
    /\ (device args <> EmptyString -> pa_device a = Some (device args)).
Proof.
  intro Hin.
  destruct (w_args w) as [args|x] eqn:Ha.
  2:{ rewrite (main_parse_raises w Ha) in Hin. split_in Hin. discriminate. }
  destruct (resolve_weights_path (w_fs w) (choose_weights (weights args)))
    as [t [p|x]] eqn:Hr.
  2:{ rewrite (main_unresolved w Ha Hr) in Hin.
      destruct x; split_in Hin; not_there Hr Hin. }
  rewrite (main_trace_resolved w Ha Hr) in Hin.
  destruct (check args) eqn:Hc.
  { split_in Hin; not_there Hr Hin. }
  exists args. eexists. split; [reflexivity|]. split; [exact Hc|].
  split; [apply coerce_source_returns|].
  assert (E : a = predict_call args
                    match (if PyStr.is_ascii (source args) then int_ascii (source args)
                           else w_int w (source args)) with
                    | Some n => inl n
                    | None => inr (source args)
                    end).
  { destruct (w_YOLO w (path_str p)) as [m'|x]; cbv zeta in Hin.
    - destruct (w_predict w m' _) as [[[|first rest]|]|x];
        split_in Hin; try not_there Hr Hin; now inversion Hin.
    - split_in Hin; not_there Hr Hin. }
  subst a. simpl. repeat split.
  - intros ->. reflexivity.
  - intro Hd. destruct (device args); [contradiction|reflexivity].
Qed.

Lemma filter_other_rank (c s : step) (l : list step) :
  Forall (eq c) l -> rank c <> rank s ->
  filter (fun x => Nat.eqb (rank x) (rank s)) l = [].
Proof.
  intros H Hr. induction H as [|x l <- _ IH]; simpl; [reflexivity|].
  destruct (Nat.eqb_spec (rank c) (rank s)); [contradiction|exact IH].
Qed.

(** X13: no run parses the command line, constructs the model or calls
    [predict] more than once; the command line is parsed exactly once,
    before anything else. *)
Theorem steps_at_most_once (w : world) :
  hd_error (fst (main w)) = Some EvParseArgs
  /\ step_count StepParse (fst (main w)) = 1%nat
  /\ (step_count StepConstruct (fst (main w)) <= 1)%nat
  /\ (step_count StepPredict (fst (main w)) <= 1)%nat.
Proof.
  split.
  - destruct (w_args w) as [args|x] eqn:Ha.
    + destruct (main_prefix w Ha) as [rest ->]. reflexivity.
    + rewrite (main_parse_raises w Ha). reflexivity.
  - unfold step_count.
    destruct (main_steps w) as (R & S & c & p & HR & HS & ->).
    repeat split;
      match goal with
      | |- context [filter (fun x => Nat.eqb (rank x) (rank ?s)) _] =>
          rewrite !filter_app, !length_app,
            (@filter_other_rank StepResolve s R HR),
            (@filter_other_rank StepSummary s S HS) by (simpl; lia)
      end; destruct c, p; simpl; lia.
Qed.

(** X14: [--check] tells what the run without it will do.  The path the
    check reports is the path the model is then constructed from, after
    the same look-ups; and when the check fails, the run without
    [--check] fails in the same way. *)
Theorem check_predicts_run (w : world) (args : namespace) :
  check args = false ->
  (forall p,
     In (EvPrint (MsgUsingWeights p)) (fst (main (with_args w (with_check args)))) ->
     exists t rest,
       main (with_args w (with_check args)) =
         (EvParseArgs :: t ++ [EvPrint (MsgUsingWeights p); EvPrint MsgCheckOk], Ok tt)
       /\ fst (main (with_args w args)) =
            EvParseArgs :: t ++ EvPrint (MsgUsingWeights p)
              :: EvYOLO (path_str p) :: rest)
  /\ (exit_status (snd (main (with_args w (with_check args)))) <> 0 ->
      main (with_args w args) = main (with_args w (with_check args))).
Proof.
  intro Hc.
  destruct (resolve_weights_path (w_fs w) (choose_weights (weights args)))
    as [t [p0|x]] eqn:Hr.
  - assert (Hdry : main (with_args w (with_check args)) =
                     (EvParseArgs :: t
                        ++ [EvPrint (MsgUsingWeights p0); EvPrint MsgCheckOk], Ok tt)).
    { rewrite (main_resolved (with_args w (with_check args))
                 (args := with_check args) (t := t) (p := p0) eq_refl Hr).
      rewrite run_model_cases. reflexivity. }
    split.
    + intros p H. rewrite Hdry in H. simpl fst in H.
      assert (p = p0) by (split_in H; try not_there Hr H; now inversion H).
      subst p0. exists t.
      rewrite (main_trace_resolved (with_args w args)
                 (args := args) (t := t) (p := p) eq_refl Hr), Hc.
      eexists. split; [exact Hdry|reflexivity].
    + rewrite Hdry. simpl. intro H. now contradiction H.
  - split.
    + intros p H.
      rewrite (main_unresolved (with_args w (with_check args))
                 (args := with_check args) (t := t) (e := x) eq_refl Hr) in H.
      destruct x; split_in H; not_there Hr H.
    + intros _.
      rewrite (main_unresolved (with_args w (with_check args))
                 (args := with_check args) (t := t) (e := x) eq_refl Hr).
      apply (main_unresolved (with_args w args) (args := args) eq_refl Hr).
Qed.

(** X15: of the list [predict] returns, the script looks at the first
    element only: two detection results that agree on it (both raising the
    same exception, both a non-empty list with the same first element, or
    both anything else) give the same run. *)
Theorem only_first_result (w : world)
    (f : model -> predict_args -> outcome (option (list result))) :
  (forall m a, first_result (f m a) = first_result (w_predict w m a)) ->
  main (with_predict w f) = main w.
Proof.
  intro H.
  destruct (w_args w) as [args|x] eqn:Ha.
  2:{ rewrite (main_parse_raises w Ha).
      apply (main_parse_raises (with_predict w f)). exact Ha. }
  destruct (resolve_weights_path (w_fs w) (choose_weights (weights args)))
    as [t [p|x]] eqn:Hr.
  2:{ rewrite (main_unresolved w Ha Hr).
      apply (main_unresolved (with_predict w f) (args := args)); assumption. }
  rewrite (main_resolved w Ha Hr).
  rewrite (main_resolved (with_predict w f) (args := args) (t := t) (p := p) Ha Hr).
  rewrite !run_model_cases. simpl w_YOLO. simpl w_predict.
  destruct (check args); [reflexivity|].
  destruct (w_YOLO w (path_str p)) as [m|x]; [|reflexivity].
  cbv zeta.
  specialize (H m (predict_call args
                     match (if PyStr.is_ascii (source args) then int_ascii (source args)
                           else w_int w (source args)) with
                     | Some n => inl n
                     | None => inr (source args)
                     end)).
  destruct (f m _) as [[[|g gs]|]|x]; destruct (w_predict w m _) as [[[|h hs]|]|y];
    simpl in H; try discriminate H; try reflexivity; inversion H; subst; reflexivity.
Qed.

End RunFacts.

(** ** More on the summary *)

Unset Implicit Arguments.

Section SummaryFacts.

Context {flavour : PathFlavour}.

Lemma dict_get_absent (d : list (Z * string)) (k : Z) (default : string) :
  (forall v, ~ In (k, v) d) -> dict_get d k default = default.
Proof.
  induction d as [|[k' v'] d IH]; intro H; simpl; [reflexivity|].
  destruct (Z.eqb_spec k' k) as [->|Hne].
  - exfalso. apply (H v'). now left.
  - apply IH. intros v Hv. apply (H v). now right.
Qed.

Lemma dict_get_present (d : list (Z * string)) (k : Z) (v default : string) :
  NoDup (map fst d) -> In (k, v) d -> dict_get d k default = v.
Proof.
  induction d as [|[k' v'] d IH]; intros Hnd Hin; simpl; [destruct Hin|].
  inversion Hnd as [|? ? Hk Hd]; subst.
  destruct Hin as [E|Hin].
  - inversion E; subst. now rewrite Z.eqb_refl.
  - destruct (Z.eqb_spec k' k) as [->|Hne]; [|now apply IH].
    exfalso. apply Hk. apply in_map_iff. exists (k, v). auto.
Qed.

(** The line of a readable box. *)
Lemma summarize_box_readable (names : option (list (Z * string))) (i : Z) (b : box) :
  box_failure b = None ->
  summarize_box names i b =
    ([EvPrint
        (MsgDetection (i + 1)
           match names with
           | Some d => dict_get d (box_cls_id b) (PyStr.of_int (box_cls_id b))
           | None => PyStr.of_int (box_cls_id b)
           end
           (box_conf_value b))],
     Ok tt).
Proof.
  unfold box_failure, box_cls_id, box_conf_value, summarize_box, lift, ret, bind,
    print, emit.
  destruct (box_cls b) as [[c|x]|]; destruct (box_conf b) as [[q|y]|];
    intro H; try discriminate H; reflexivity.
Qed.

Lemma summarize_box_failing (names : option (list (Z * string))) (i : Z) (b : box)
    (e : exn) :
  box_failure b = Some e -> summarize_box names i b = ([], Raise e).
Proof.
  unfold box_failure, summarize_box, lift, ret, bind, print, emit.
  destruct (box_cls b) as [[c|x]|]; destruct (box_conf b) as [[q|y]|];
    intro H; inversion H; subst; reflexivity.
Qed.

Lemma summarize_boxes_readable (names : option (list (Z * string)))
    (bs : list box) (i : Z) :
  Forall (fun b => box_failure b = None) bs ->
  snd (summarize_boxes names i bs) = Ok tt
  /\ length (fst (summarize_boxes names i bs)) = length bs
  /\ forall k b, nth_error bs k = Some b ->
       nth_error (fst (summarize_boxes names i bs)) k =
         Some (EvPrint
                 (MsgDetection (i + Z.of_nat k + 1)
                    match names with
                    | Some d => dict_get d (box_cls_id b) (PyStr.of_int (box_cls_id b))
                    | None => PyStr.of_int (box_cls_id b)
                    end
                    (box_conf_value b))).
Proof.
  intro H. revert i. induction H as [|b bs Hb _ IH]; intro i.
  - simpl. repeat split. intros [|k] b H; discriminate H.
  - cbn [summarize_boxes]. rewrite (summarize_box_readable names i b Hb).
    destruct (IH (i + 1)) as (Hs & Hl & Hn).
    destruct (summarize_boxes names (i + 1) bs) as [t r].
    cbn [fst snd bind app length] in *.
    split; [exact Hs|]. split; [now rewrite Hl|].
    intros [|k] c Hk; cbn [nth_error] in *.
    + inversion Hk; subst. now rewrite Z.add_0_r.
    + rewrite (Hn k c Hk).
      replace (i + 1 + Z.of_nat k + 1) with (i + Z.of_nat (S k) + 1) by lia.
      reflexivity.
Qed.

Lemma summarize_boxes_stops (names : option (list (Z * string)))
    (good : list box) (bad : box) (rest : list box) (e : exn) (i : Z) :
  Forall (fun b => box_failure b = None) good ->
  box_failure bad = Some e ->
  summarize_boxes names i (good ++ bad :: rest) =
    (fst (summarize_boxes names i good), Raise e).
Proof.
  intros Hg Hb. revert i. induction Hg as [|b bs Hbr _ IH]; intro i.
  - simpl. rewrite (summarize_box_failing names i bad e Hb). reflexivity.
  - cbn [app summarize_boxes]. rewrite (summarize_box_readable names i b Hbr).
    rewrite (IH (i + 1)).
    destruct (summarize_boxes names (i + 1) bs) as [t r]. reflexivity.
Qed.

(** X16: when every box can be read, the summary prints one line per
    box, in the order of the boxes and numbered from 1, each with the
    label and the confidence of its box, and returns. *)
Theorem summary_lists_every_box (names : option (list (Z * string)))
    (first : result) (bxs : boxes) (n : Z) :
  result_boxes first = Ok (Some bxs) ->
  boxes_len bxs = Ok n -> 0 < n ->
  Forall (fun b => box_failure b = None) (boxes_items bxs) ->
  snd (summary names first) = Ok tt
  /\ length (fst (summary names first)) = length (boxes_items bxs)
  /\ forall k b, nth_error (boxes_items bxs) k = Some b ->
       nth_error (fst (summary names first)) k =
         Some (EvPrint
                 (MsgDetection (Z.of_nat k + 1)
                    match names with
                    | Some d => dict_get d (box_cls_id b) (PyStr.of_int (box_cls_id b))
                    | None => PyStr.of_int (box_cls_id b)
                    end
                    (box_conf_value b))).
Proof.
  intros Hb Hl Hn Hr.
  destruct (summarize_boxes_readable names (boxes_items bxs) 0 Hr) as (Hs & Hlen & Hk).
  assert (E : summary names first = summarize_boxes names 0 (boxes_items bxs)).
  { rewrite summary_cases. unfold summary_body, lift, bind. rewrite Hb, Hl.
    apply Z.ltb_lt in Hn. rewrite Hn.
    destruct (summarize_boxes names 0 (boxes_items bxs)) as [t r]. simpl in *.
    subst r. reflexivity. }
  rewrite E. auto.
Qed.

(** X17: the first box that cannot be read ends the summary.  The lines
    of the boxes before it are printed; then comes the fallback line and
    the summary returns, when the failure is of class [Exception], and the
    failure leaves the summary otherwise.  Nothing of the boxes after it is
    printed. *)
Theorem summary_stops_at_first_failure (names : option (list (Z * string)))
    (first : result) (bxs : boxes) (n : Z)
    (good : list box) (bad : box) (rest : list box) (e : exn) :
  result_boxes first = Ok (Some bxs) ->
  boxes_len bxs = Ok n -> 0 < n ->
  boxes_items bxs = good ++ bad :: rest ->
  Forall (fun b => box_failure b = None) good ->
  box_failure bad = Some e ->
  summary names first =
    if is_Exception e then
      (fst (summarize_boxes names 0 good) ++ [EvPrint MsgUnavailable], Ok tt)
    else (fst (summarize_boxes names 0 good), Raise e).
Proof.
  intros Hb Hl Hn Hi Hg Hf.
  rewrite summary_cases. unfold summary_body, lift, bind. rewrite Hb, Hl.
  apply Z.ltb_lt in Hn. rewrite Hn, Hi, (summarize_boxes_stops names good bad rest e 0 Hg Hf).
  destruct (is_Exception e); reflexivity.
Qed.

(** X18: the label of a box is the name the model gives to its class;
    when the model has no name for the class, or no dictionary of names,
    the label is the number of the class; and a box with neither class nor
    confidence is shown as class -1 with confidence 0. *)
Theorem detection_label (i : Z) (b : box) :
  box_failure b = None ->
  (forall d v, NoDup (map fst d) -> In (box_cls_id b, v) d ->
     summarize_box (Some d) i b =
       ([EvPrint (MsgDetection (i + 1) v (box_conf_value b))], Ok tt))
  /\ (forall d, (forall v, ~ In (box_cls_id b, v) d) ->
        summarize_box (Some d) i b =
          ([EvPrint (MsgDetection (i + 1) (PyStr.of_int (box_cls_id b))
                       (box_conf_value b))], Ok tt))
  /\ summarize_box None i b =
       ([EvPrint (MsgDetection (i + 1) (PyStr.of_int (box_cls_id b))
                    (box_conf_value b))], Ok tt)
  /\ (box_cls b = None -> box_conf b = None ->
      summarize_box None i b = ([EvPrint (MsgDetection (i + 1) "-1" 0%Q)], Ok tt)).
Proof.
  intro Hb. split; [|split; [|split]].
  - intros d v Hnd Hin. rewrite (summarize_box_readable (Some d) i b Hb).
    now rewrite (dict_get_present d (box_cls_id b) v _ Hnd Hin).
  - intros d Habs. rewrite (summarize_box_readable (Some d) i b Hb).
    now rewrite (dict_get_absent d (box_cls_id b) _ Habs).
  - apply (summarize_box_readable None i b Hb).
  - intros Hc Hq. rewrite (summarize_box_readable None i b Hb).
    unfold box_cls_id, box_conf_value. rewrite Hc, Hq. reflexivity.
Qed.

End SummaryFacts.

(** ** The further properties on concrete worlds *)

Section ConcreteFacts.

Import Examples Scenarios.

(** best.pt is found beside the script, after the look-up in the working
    directory answered [False]; with no best.pt in either place the call
    raises the error that lists both. *)
Lemma resolve_returns_existing_file_witness :
  String.eqb (PyStr.upper "best.pt") "AUTO" = false
  /\ fs_is_file fs_script_only (Posix.make "/opt/app/best.pt") = Ok true
  /\ (exists before after,
        build_candidates fs_script_only (mkPath "best.pt")
          = before ++ Posix.make "/opt/app/best.pt" :: after
        /\ forall b, In b before -> fs_is_file fs_script_only b = Ok false)
  /\ snd (resolve_weights_path fs_empty "best.pt") =
       Raise (FileNotFoundError
                "Could not find weights file for spec 'best.pt'. Tried: best.pt, /opt/app/best.pt").
Proof.
  split; [reflexivity|].
  destruct (proj1 (@resolve_returns_existing_file posix fs_script_only "best.pt" eq_refl)
              (Posix.make "/opt/app/best.pt") eq_refl) as [H1 H2].
  split; [exact H1|]. split; [exact H2|].
  refine (proj1 (proj2 (@resolve_returns_existing_file posix fs_empty "best.pt" eq_refl))
            _).
  intros c [<-|[<-|[]]]; reflexivity.
Defined.

(** An absolute path to a file that does not exist, and one under a
    directory that may not be searched. *)
Lemma resolve_absolute_missing_witness :
  is_absolute (mkPath "/srv/models/none.pt") = true
  /\ fs_is_file fs_both (mkPath "/srv/models/none.pt") = Ok false
  /\ resolve_weights_path fs_both "/srv/models/none.pt" =
       ([EvIsFile (Posix.make "/srv/models/none.pt")],
        Raise (FileNotFoundError
                 "Could not find weights file for spec '/srv/models/none.pt'. Tried: /srv/models/none.pt"))
  /\ resolve_weights_path fs_locked "/root/best.pt" =
       ([EvIsFile (Posix.make "/root/best.pt")],
        Raise (OtherException "PermissionError")).
Proof.
  split; [reflexivity|]. split; [reflexivity|]. split.
  - exact (proj1 (@resolve_absolute_missing posix fs_both "/srv/models/none.pt"
                    eq_refl eq_refl) eq_refl).
  - exact (proj2 (@resolve_absolute_missing posix fs_locked "/root/best.pt"
                    eq_refl eq_refl) _ eq_refl).
Defined.

(** The sentinel gives the same answer whatever the look-ups answer; a
    plain spec gives the same answer whatever the listing of the script's
    directory is. *)
Lemma resolve_reads_what_its_branch_needs_witness :
  resolve_weights_path fs_both "AUTO" = resolve_weights_path fs_other_files "AUTO"
  /\ resolve_weights_path fs_both "best.pt" =
     resolve_weights_path fs_other_listing "best.pt".
Proof.
  split.
  - refine (proj1 (@resolve_reads_what_its_branch_needs posix
                     fs_both fs_other_files "AUTO" eq_refl) eq_refl eq_refl _).
    intros p H. simpl in H.
    repeat (destruct H as [H|H]; [subst p; reflexivity|]). destruct H.
  - refine (proj2 (@resolve_reads_what_its_branch_needs posix
                     fs_both fs_other_listing "best.pt" eq_refl) eq_refl _).
    intros p [<-|[<-|[]]]; reflexivity.
Defined.

(** The path object of /srv/models/fire.pt. *)
Lemma resolve_path_object_witness :
  Posix.well_formed (Posix.make "/srv/models/fire.pt")
  /\ mkPath (path_str (Posix.make "/srv/models/fire.pt"))
     = Posix.make "/srv/models/fire.pt"
  /\ resolve_weights_path fs_both (path_str (Posix.make "/srv/models/fire.pt")) =
       ([EvIsFile (Posix.make "/srv/models/fire.pt")],
        Ok (Posix.make "/srv/models/fire.pt")).
Proof.
  assert (Hw : Posix.well_formed (Posix.make "/srv/models/fire.pt"))
    by (split; vm_compute; [auto|repeat constructor]).
  split; [exact Hw|].
  destruct (@resolve_path_object fs_both (Posix.make "/srv/models/fire.pt")
              Hw eq_refl) as (H1 & H2 & _).
  split; [exact H1|exact (H2 eq_refl)].
Defined.

(** best.pt resolves to /opt/app/best.pt, which resolves to itself. *)
Lemma resolve_resolved_path_witness :
  Posix.well_formed (fs_script_dir fs_script_only)
  /\ resolve_weights_path fs_script_only "best.pt" =
    ([EvIsFile (Posix.make "best.pt"); EvIsFile (Posix.make "/opt/app/best.pt")],
     Ok (Posix.make "/opt/app/best.pt"))
  /\ resolve_weights_path fs_script_only "/opt/app/best.pt" =
       ([EvIsFile (Posix.make "/opt/app/best.pt")],
        Ok (Posix.make "/opt/app/best.pt")).
Proof.
  assert (Hw : Posix.well_formed (fs_script_dir fs_script_only))
    by (split; vm_compute; [auto|repeat constructor]).
  split; [exact Hw|]. split; [reflexivity|].
  exact (@resolve_resolved_path fs_script_only "best.pt"
           [EvIsFile (Posix.make "best.pt"); EvIsFile (Posix.make "/opt/app/best.pt")]
           (Posix.make "/opt/app/best.pt")
           Hw eq_refl eq_refl eq_refl).
Defined.

(** A stream address is not a camera index. *)
Lemma coerce_source_keeps_names_witness :
  PyStr.is_ascii "rtsp://cam/1" = true
  /\ str_exists (fun c => negb (int_char c)) "rtsp://cam/1" = true
  /\ coerce_source (fun _ => None) "rtsp://cam/1" = Ok (inr "rtsp://cam/1").
Proof.
  split; [reflexivity|]. split; [reflexivity|].
  exact (coerce_source_keeps_names (fun _ => None) "rtsp://cam/1" eq_refl eq_refl).
Defined.

(** Two blanks. *)
Lemma coerce_source_blank_witness :
  str_forall PyStr.is_space "  " = true
  /\ coerce_source (fun _ => None) "  " = Ok (inr "  ").
Proof.
  split; [reflexivity|]. exact (coerce_source_blank (fun _ => None) "  " eq_refl).
Defined.

(** Camera 1 written with a blank before it and a line end after it; and
    a file name written in the same way. *)
Lemma coerce_source_padding_witness :
  coerce_source (fun _ => None) (" " ++ "1" ++ String "010" EmptyString) = Ok (inl 1)
  /\ coerce_source (fun _ => None) (" " ++ "a.mp4" ++ String "010" EmptyString)
     = Ok (inr (" " ++ "a.mp4" ++ String "010" EmptyString)%string).
Proof.
  split.
  - exact (coerce_source_padding (fun _ => None) " " "1" (String "010" EmptyString)
             eq_refl eq_refl eq_refl).
  - exact (coerce_source_padding (fun _ => None) " " "a.mp4" (String "010" EmptyString)
             eq_refl eq_refl eq_refl).
Defined.

(** The default weights are missing: the run ends in the exit with
    status 1, and no model was constructed.  The weights are under a
    directory that may not be searched: the run ends with the exception of
    the look-up. *)
Lemma failure_before_construction_witness :
  snd (main (w_ok default_args fs_both)) = Raise (SystemExit 1)
  /\ (exists args t msg,
        w_args (w_ok default_args fs_both) = Ok args
        /\ resolve_weights_path (w_fs (w_ok default_args fs_both))
             (choose_weights (weights args)) = (t, Raise (FileNotFoundError msg))
        /\ fst (main (w_ok default_args fs_both)) =
             EvParseArgs :: t ++ [EvPrint (MsgError msg); EvPrint MsgHint])
  /\ snd (main (w_ok (with_weights best_pt (Some "secret/best.pt")) fs_unsearchable))
     = Raise (OtherException "PermissionError")
  /\ exists args t,
       w_args (w_ok (with_weights best_pt (Some "secret/best.pt")) fs_unsearchable)
         = Ok args
       /\ resolve_weights_path
            (w_fs (w_ok (with_weights best_pt (Some "secret/best.pt")) fs_unsearchable))
            (choose_weights (weights args))
          = (t, Raise (OtherException "PermissionError"))
       /\ fst (main (w_ok (with_weights best_pt (Some "secret/best.pt")) fs_unsearchable))
          = EvParseArgs :: t.
Proof.
  split; [reflexivity|]. split; [|split; [reflexivity|]].
  - assert (Hno : forall ws, ~ In (EvYOLO ws) (fst (main (w_ok default_args fs_both)))).
    { intros ws H. vm_compute in H.
      repeat (destruct H as [H|H]; [discriminate H|]). exact H. }
    destruct (@failure_before_construction posix (w_ok default_args fs_both)
                (SystemExit 1) eq_refl Hno) as [[H _]|[[_ H]|[_ H]]].
    + discriminate H.
    + exact H.
    + destruct H as (args & t & Ha & Hr & _). exfalso.
      inversion Ha; subst args. vm_compute in Hr. discriminate Hr.
  - assert (Hno : forall ws,
              ~ In (EvYOLO ws)
                  (fst (main (w_ok (with_weights best_pt (Some "secret/best.pt"))
                                fs_unsearchable)))).
    { intros ws H. vm_compute in H.
      repeat (destruct H as [H|H]; [discriminate H|]). exact H. }
    destruct (@failure_before_construction posix
                (w_ok (with_weights best_pt (Some "secret/best.pt")) fs_unsearchable)
                (OtherException "PermissionError") eq_refl Hno)
      as [[H _]|[[H _]|[_ H]]].
    + discriminate H.
    + discriminate H.
    + exact H.
Defined.

(** With best.pt in the working directory the run prints the path and no
    hint; with the weights under a directory that may not be searched it
    prints neither. *)
Lemma using_weights_or_hint_witness :
  w_args (w_ok best_pt fs_both) = Ok best_pt
  /\ In (EvPrint (MsgUsingWeights (Posix.make "best.pt")))
        (fst (main (w_ok best_pt fs_both)))
  /\ ~ In (EvPrint MsgHint) (fst (main (w_ok best_pt fs_both)))
  /\ main (w_ok (with_weights best_pt (Some "secret/best.pt")) fs_unsearchable) =
       ([EvParseArgs; EvIsFile (Posix.make "secret/best.pt")],
        Raise (OtherException "PermissionError")).
Proof.
  split; [reflexivity|].
  destruct (@using_weights_or_hint posix (w_ok best_pt fs_both) best_pt eq_refl)
    as (H1 & H2 & _).
  split; [|split].
  - apply (H1 (Posix.make "best.pt")). reflexivity.
  - intro H. apply H2 in H. destruct H as [msg H]. discriminate H.
  - exact (proj1 (proj2 (proj2 (proj2
             (@using_weights_or_hint posix
                (w_ok (with_weights best_pt (Some "secret/best.pt")) fs_unsearchable)
                (with_weights best_pt (Some "secret/best.pt")) eq_refl)))
             (OtherException "PermissionError") eq_refl eq_refl)).
Defined.

(** A clip, on a named device, with a window. *)
Lemma predict_arguments_witness :
  In (EvPredict fire_model (predict_call cuda_args (inr "clip.mp4")))
     (fst (main (w_ok cuda_args fs_both)))
  /\ exists args src,
       w_args (w_ok cuda_args fs_both) = Ok args
       /\ check args = false
       /\ coerce_source (w_int (w_ok cuda_args fs_both)) (source args) = Ok src
       /\ pa_source (predict_call cuda_args (inr "clip.mp4")) = src
       /\ pa_conf (predict_call cuda_args (inr "clip.mp4")) = conf args
       /\ pa_imgsz (predict_call cuda_args (inr "clip.mp4")) = imgsz args
       /\ pa_show (predict_call cuda_args (inr "clip.mp4")) = show args
       /\ pa_save (predict_call cuda_args (inr "clip.mp4")) = save args
       /\ pa_stream (predict_call cuda_args (inr "clip.mp4")) = false
       /\ pa_verbose (predict_call cuda_args (inr "clip.mp4")) = true
       /\ (device args = EmptyString ->
           pa_device (predict_call cuda_args (inr "clip.mp4")) = None)
       /\ (device args <> EmptyString ->
           pa_device (predict_call cuda_args (inr "clip.mp4")) = Some (device args)).
Proof.
  assert (Hin : In (EvPredict fire_model (predict_call cuda_args (inr "clip.mp4")))
                   (fst (main (w_ok cuda_args fs_both)))).
  { vm_compute. do 5 right. left. reflexivity. }
  split; [exact Hin|].
  exact (@predict_arguments posix (w_ok cuda_args fs_both) fire_model
           (predict_call cuda_args (inr "clip.mp4")) Hin).
Defined.

(** The check on best.pt reports the path the real run loads. *)
Lemma check_predicts_run_witness :
  check best_pt = false
  /\ exists t rest,
       main (with_args (w_ok default_args fs_both) (with_check best_pt)) =
         (EvParseArgs :: t
            ++ [EvPrint (MsgUsingWeights (Posix.make "best.pt")); EvPrint MsgCheckOk],
          Ok tt)
       /\ fst (main (with_args (w_ok default_args fs_both) best_pt)) =
            EvParseArgs :: t ++ EvPrint (MsgUsingWeights (Posix.make "best.pt"))
              :: EvYOLO (path_str (Posix.make "best.pt")) :: rest.
Proof.
  split; [reflexivity|].
  apply (proj1 (@check_predicts_run posix (w_ok default_args fs_both) best_pt eq_refl)).
  vm_compute. do 2 right. left. reflexivity.
Defined.

(** A second frame, even a broken one, changes nothing. *)
Lemma only_first_result_witness :
  main (with_predict (w_ok best_pt fs_both) two_frames) = main (w_ok best_pt fs_both).
Proof.
  apply (@only_first_result posix (w_ok best_pt fs_both) two_frames).
  intros m a. reflexivity.
Defined.

(** Three readable boxes give three lines, numbered 1 to 3. *)
Lemma summary_lists_every_box_witness :
  fst (summary (Some fire_names)
         {| result_boxes :=
              Ok (Some {| boxes_len := Ok 3; boxes_items := three_boxes |}) |}) =
    [EvPrint (MsgDetection 1 "fire" 0.9%Q);
     EvPrint (MsgDetection 2 "7" 0.6%Q);
     EvPrint (MsgDetection 3 "-1" 0%Q)]
  /\ snd (summary (Some fire_names)
            {| result_boxes :=
                 Ok (Some {| boxes_len := Ok 3; boxes_items := three_boxes |}) |}) = Ok tt
  /\ length (fst (summary (Some fire_names)
                    {| result_boxes :=
                         Ok (Some {| boxes_len := Ok 3; boxes_items := three_boxes |}) |}))
     = 3%nat.
Proof.
  split; [reflexivity|].
  assert (Hr : Forall (fun b => box_failure b = None) three_boxes)
    by (repeat constructor).
  destruct (@summary_lists_every_box posix (Some fire_names)
              {| result_boxes :=
                   Ok (Some {| boxes_len := Ok 3; boxes_items := three_boxes |}) |}
              {| boxes_len := Ok 3; boxes_items := three_boxes |} 3
              eq_refl eq_refl eq_refl Hr) as (H1 & H2 & _).
  split; [exact H1|exact H2].
Defined.

(** The second of three boxes fails: one line, then the fallback; the
    third box is not shown. *)
Lemma summary_stops_at_first_failure_witness :
  summary (Some fire_names) broken_result =
    ([EvPrint (MsgDetection 1 "smoke" 0.5%Q); EvPrint MsgUnavailable], Ok tt).
Proof.
  refine (@summary_stops_at_first_failure posix (Some fire_names) broken_result
           {| boxes_len := Ok 3;
              boxes_items :=
                [ {| box_cls := Some (Ok 1); box_conf := Some (Ok 0.5%Q) |};
                  {| box_cls := Some (Ok 0);
                     box_conf := Some (Raise (OtherException "TypeError")) |};
                  {| box_cls := Some (Ok 2); box_conf := Some (Ok 0.8%Q) |} ] |}
           3
           [ {| box_cls := Some (Ok 1); box_conf := Some (Ok 0.5%Q) |} ]
           {| box_cls := Some (Ok 0);
              box_conf := Some (Raise (OtherException "TypeError")) |}
           [ {| box_cls := Some (Ok 2); box_conf := Some (Ok 0.8%Q) |} ]
           (OtherException "TypeError")
           eq_refl eq_refl eq_refl eq_refl _ eq_refl).
  repeat constructor.
Defined.

(** A box of class 2 is a human; a box of class 7 has no name. *)
Lemma detection_label_witness :
  summarize_box (Some fire_names) 0
    {| box_cls := Some (Ok 2); box_conf := Some (Ok 0.8%Q) |} =
    ([EvPrint (MsgDetection 1 "human" 0.8%Q)], Ok tt)
  /\ summarize_box (Some fire_names) 1
       {| box_cls := Some (Ok 7); box_conf := Some (Ok 0.6%Q) |} =
       ([EvPrint (MsgDetection 2 "7" 0.6%Q)], Ok tt).
Proof.
  split.
  - refine (proj1 (@detection_label posix 0
                     {| box_cls := Some (Ok 2); box_conf := Some (Ok 0.8%Q) |} eq_refl)
              fire_names "human" _ _).
    + repeat constructor; simpl; intuition discriminate.
    + simpl. tauto.
  - refine (proj1 (proj2 (@detection_label posix 1
                     {| box_cls := Some (Ok 7); box_conf := Some (Ok 0.6%Q) |} eq_refl))
              fire_names _).
    intros v H. simpl in H. intuition discriminate.
Defined.

End ConcreteFacts.
